(** * SinglePlatform location API client: a shallow embedding

    This development embeds [singleplatform.py] (class
    [SinglePlatformLocationAPI]) together with the parts of the Python
    standard library it calls ([hashlib.sha1], [hmac], [base64.b64encode],
    [urllib.parse.urlencode]) and an abstract model of [requests.get].

    Conventions.
    - A Python [str] is a [string] holding the UTF-8 encoding of the text, so
      [str.encode()] is the identity on the representation and [str.format]
      with string arguments is concatenation.
    - A Python [bytes] is a [list byte].
    - A Python [dict] is an association list in insertion order (the order
      [urlencode] iterates in); dicts that the program mutates live in a
      heap and are passed by reference.
    - Methods with effects (heap, standard output, network) are written in a
      state-and-exception monad over [world]. *)

From Stdlib Require Import ZArith List String Ascii Strings.Byte Lia DecimalString Sorted Wellfounded.
From stdpp Require Import base list.
Import ListNotations.

Local Open Scope string_scope.
Local Open Scope list_scope.

(** ** Bytes *)

Definition bytes := list byte.

Definition byte_to_Z (b : byte) : Z := Z.of_N (Byte.to_N b).

Definition byte_of_Z (z : Z) : byte :=
  match Byte.of_N (Z.to_N (z mod 256)) with
  | Some b => b
  | None => x00
  end.

(** [str.encode()] and [bytes.decode()] on the UTF-8 representation. *)
Definition encode (s : string) : bytes := list_byte_of_string s.
Definition decode (b : bytes) : string := string_of_list_byte b.

(** ** hashlib.sha1 (FIPS 180-4, section 6.1) *)

Module hashlib.

Definition w32 (x : Z) : Z := (x mod 2 ^ 32)%Z.
Definition add32 (x y : Z) : Z := w32 (x + y).
Definition rotl32 (n x : Z) : Z :=
  w32 (Z.lor (Z.shiftl x n) (Z.shiftr x (32 - n))).
Definition not32 (x : Z) : Z := Z.lxor x 0xFFFFFFFF.

Definition f (t : nat) (b c d : Z) : Z :=
  if (t <? 20)%nat then Z.lor (Z.land b c) (Z.land (not32 b) d)
  else if (t <? 40)%nat then Z.lxor (Z.lxor b c) d
  else if (t <? 60)%nat then Z.lor (Z.lor (Z.land b c) (Z.land b d)) (Z.land c d)
  else Z.lxor (Z.lxor b c) d.

Definition K (t : nat) : Z :=
  if (t <? 20)%nat then 0x5A827999
  else if (t <? 40)%nat then 0x6ED9EBA1
  else if (t <? 60)%nat then 0x8F1BBCDC
  else 0xCA62C1D6.

(** The [n] low bytes of [z], most significant first. *)
Definition be_word (z : Z) (n : nat) : bytes :=
  map (fun i => byte_of_Z (Z.shiftr z (8 * Z.of_nat i))) (rev (seq 0 n)).

Fixpoint word_of_be (bs : bytes) (acc : Z) : Z :=
  match bs with
  | [] => acc
  | b :: bs' => word_of_be bs' (acc * 256 + byte_to_Z b)
  end.

(** Message padding: a 1 bit, zeros, and the bit length on 64 bits. *)
Definition pad (msg : bytes) : bytes :=
  let l := length msg in
  let k := ((64 - (l + 9) mod 64) mod 64)%nat in
  msg ++ [x80] ++ repeat x00 k ++ be_word (8 * Z.of_nat l) 8.

Fixpoint chunks (n : nat) (fuel : nat) (bs : bytes) : list bytes :=
  match fuel, bs with
  | _, [] => []
  | O, _ => []
  | S fuel', _ => firstn n bs :: chunks n fuel' (skipn n bs)
  end.

(** Message schedule: W(t) = ROTL1 (W(t-3) xor W(t-8) xor W(t-14) xor W(t-16)). *)
Fixpoint extend (n : nat) (t : nat) (W : list Z) : list Z :=
  match n with
  | O => W
  | S n' =>
      let g i := nth (t - i) W 0%Z in
      extend n' (S t)
        (W ++ [rotl32 1 (Z.lxor (Z.lxor (Z.lxor (g 3%nat) (g 8%nat)) (g 14%nat)) (g 16%nat))])
  end.

Definition schedule (block : bytes) : list Z :=
  extend 64 16 (map (fun c => word_of_be c 0) (chunks 4 16 block)).

Definition state : Type := Z * Z * Z * Z * Z.

Definition round (s : state) (tw : nat * Z) : state :=
  let '(a, b, c, d, e) := s in
  let '(t, wt) := tw in
  (add32 (add32 (add32 (add32 (rotl32 5 a) (f t b c d)) e) (K t)) wt,
   a, rotl32 30 b, c, d).

Definition compress (h : state) (block : bytes) : state :=
  let '(a, b, c, d, e) := fold_left round (combine (seq 0 80) (schedule block)) h in
  let '(h0, h1, h2, h3, h4) := h in
  (add32 h0 a, add32 h1 b, add32 h2 c, add32 h3 d, add32 h4 e).

Definition H0 : state :=
  (0x67452301, 0xEFCDAB89, 0x98BADCFE, 0x10325476, 0xC3D2E1F0)%Z.

Definition sha1_digest (msg : bytes) : bytes :=
  let p := pad msg in
  let '(a, b, c, d, e) := fold_left compress (chunks 64 (length p) p) H0 in
  be_word a 4 ++ be_word b 4 ++ be_word c 4 ++ be_word d 4 ++ be_word e 4.

(** A hash object, as [hashlib.sha1()] returns it: what matters of its
    state is the bytes fed to it so far. *)
Record HASH := { fed : bytes }.

Definition block_size : nat := 64.

Definition sha1 (data : bytes) : HASH := {| fed := data |}.
Definition update (h : HASH) (data : bytes) : HASH := {| fed := fed h ++ data |}.
Definition copy (h : HASH) : HASH := h.
Definition digest (h : HASH) : bytes := sha1_digest (fed h).

End hashlib.

(** ** hmac.HMAC (Lib/hmac.py) *)

Module hmac.

Definition translate (table : byte -> byte) (b : bytes) : bytes := map table b.

Definition trans_5C (x : byte) : byte := byte_of_Z (Z.lxor (byte_to_Z x) 0x5C).
Definition trans_36 (x : byte) : byte := byte_of_Z (Z.lxor (byte_to_Z x) 0x36).

(** [bytes.ljust(width, b'\0')] *)
Definition ljust (b : bytes) (width : nat) : bytes :=
  b ++ repeat x00 (width - length b).

Record HMAC := { outer : hashlib.HASH; inner : hashlib.HASH }.

(** [HMAC.__init__(key, msg, digestmod=hashlib.sha1)] *)
Definition new (key msg : bytes) : HMAC :=
  let blocksize := hashlib.block_size in
  let key := if (blocksize <? length key)%nat
             then hashlib.digest (hashlib.sha1 key) else key in
  let key := ljust key blocksize in
  let outer := hashlib.update (hashlib.sha1 []) (translate trans_5C key) in
  let inner := hashlib.update (hashlib.sha1 []) (translate trans_36 key) in
  {| outer := outer; inner := hashlib.update inner msg |}.

Definition _current (self : HMAC) : hashlib.HASH :=
  let h := hashlib.copy (outer self) in
  hashlib.update h (hashlib.digest (inner self)).

Definition digest (self : HMAC) : bytes := hashlib.digest (_current self).

End hmac.

(** HMAC-SHA1 as RFC 2104 words it: H(K xor opad, H(K xor ipad, text)), where
    K is the key, hashed first when longer than a block, then zero-padded to
    the block length B = 64. *)
Definition HMAC_SHA1_rfc2104 (key text : bytes) : bytes :=
  let K0 := if (64 <? length key)%nat then hashlib.sha1_digest key else key in
  let K := K0 ++ repeat x00 (64 - length K0) in
  let xor_with (c : Z) := map (fun b => byte_of_Z (Z.lxor (byte_to_Z b) c)) in
  hashlib.sha1_digest (xor_with 0x5C%Z K ++ hashlib.sha1_digest (xor_with 0x36%Z K ++ text)).

(** ** base64.b64encode (RFC 4648, standard alphabet, with padding) *)

Module base64.

Definition alphabet : bytes :=
  encode "ABCDEFGHIJKLMNOPQRSTUVWXYZabcdefghijklmnopqrstuvwxyz0123456789+/".

Definition sextet (n : Z) : byte := nth (Z.to_nat (n mod 64)) alphabet x00.

Fixpoint b64encode (s : bytes) : bytes :=
  match s with
  | [] => []
  | [a] =>
      let n := (byte_to_Z a * 65536)%Z in
      [sextet (Z.shiftr n 18); sextet (Z.shiftr n 12); "="%byte; "="%byte]
  | [a; b] =>
      let n := (byte_to_Z a * 65536 + byte_to_Z b * 256)%Z in
      [sextet (Z.shiftr n 18); sextet (Z.shiftr n 12); sextet (Z.shiftr n 6); "="%byte]
  | a :: b :: c :: rest =>
      let n := (byte_to_Z a * 65536 + byte_to_Z b * 256 + byte_to_Z c)%Z in
      sextet (Z.shiftr n 18) :: sextet (Z.shiftr n 12) :: sextet (Z.shiftr n 6)
        :: sextet n :: b64encode rest
  end.

End base64.

(** ** urllib.parse (Lib/urllib/parse.py, Python 3.6) *)

(** An argument that Python accepts as [str] or as [bytes]. *)
Inductive str_or_bytes :=
| Str (s : string)
| Bytes (b : bytes).

Module urllib_parse.

Definition byte_in (b : byte) (l : bytes) : bool := existsb (Byte.eqb b) l.

(** Letters, digits and [_.-]; Python 3.7 adds the tilde, which no
    statement below depends on. *)
Definition _ALWAYS_SAFE : bytes :=
  encode "ABCDEFGHIJKLMNOPQRSTUVWXYZabcdefghijklmnopqrstuvwxyz0123456789_.-".

Definition hex_upper (n : Z) : ascii :=
  nth (Z.to_nat n) (list_ascii_of_string "0123456789ABCDEF") "0"%char.

(** [Quoter.__missing__]: [chr(b)] when safe, else ['%{:02X}'.format(b)]. *)
Definition quoter (safe : bytes) (b : byte) : string :=
  if byte_in b _ALWAYS_SAFE || byte_in b safe
  then String (ascii_of_byte b) EmptyString
  else String "%"%char
         (String (hex_upper (byte_to_Z b / 16))
            (String (hex_upper (byte_to_Z b mod 16)) EmptyString)).

(** The early returns of the source (empty input, nothing to quote) give
    the same string as the general path. *)
Definition quote_from_bytes (bs : bytes) (safe : bytes) : string :=
  String.concat EmptyString (map (quoter safe) bs).

Definition quote (s : str_or_bytes) (safe : bytes) : string :=
  match s with
  | Str s => if String.eqb s EmptyString then s else quote_from_bytes (encode s) safe
  | Bytes b => quote_from_bytes b safe
  end.

Definition has_space (s : str_or_bytes) : bool :=
  match s with
  | Str s => byte_in " "%byte (encode s)
  | Bytes b => byte_in " "%byte b
  end.

(** [str.replace(' ', '+')] *)
Fixpoint replace_space (s : string) : string :=
  match s with
  | EmptyString => EmptyString
  | String c s' => String (if Ascii.eqb c " " then "+"%char else c) (replace_space s')
  end.

Definition quote_plus (s : str_or_bytes) (safe : bytes) : string :=
  if negb (has_space s) then quote s safe
  else replace_space (quote s (safe ++ [" "%byte])).

End urllib_parse.

(** ** Values stored in the query-parameter dicts *)

Inductive pyval :=
| VStr (s : string)
| VInt (n : Z)
| VBytes (b : bytes).

(** [repr] of a [bytes] object (Objects/bytesobject.c, [PyBytes_Repr]): the
    literal [b'...'], in double quotes when the bytes hold a single quote
    and no double quote. *)
Definition hex_lower (n : Z) : ascii :=
  nth (Z.to_nat n) (list_ascii_of_string "0123456789abcdef") "0"%char.

Definition repr_byte (quote : byte) (c : byte) : string :=
  let s1 (a : ascii) := String a EmptyString in
  if Byte.eqb c quote || Byte.eqb c "\"%byte then String "\"%char (s1 (ascii_of_byte c))
  else if Byte.eqb c x09 then "\t"
  else if Byte.eqb c x0a then "\n"
  else if Byte.eqb c x0d then "\r"
  else if (byte_to_Z c <? 32)%Z || (127 <=? byte_to_Z c)%Z
       then "\x" ++ String (hex_lower (byte_to_Z c / 16)) (s1 (hex_lower (byte_to_Z c mod 16)))
  else s1 (ascii_of_byte c).

Definition bytes_repr (b : bytes) : string :=
  let quote := if existsb (Byte.eqb "'"%byte) b && negb (existsb (Byte.eqb x22) b)
               then x22 else "'"%byte in
  let q := String (ascii_of_byte quote) EmptyString in
  "b" ++ q ++ String.concat EmptyString (map (repr_byte quote) b) ++ q.

(** [str(v)] *)
Definition py_str (v : pyval) : string :=
  match v with
  | VStr s => s
  | VInt n => NilZero.string_of_int (Z.to_int n)
  | VBytes b => bytes_repr b
  end.

(** A dict in insertion order. *)
Definition pydict := list (string * pyval).

Fixpoint dict_get (d : pydict) (k : string) : option pyval :=
  match d with
  | [] => None
  | (k', v) :: d' => if String.eqb k' k then Some v else dict_get d' k
  end.

(** [d[k] = v]: an existing key keeps its position, a new key goes last. *)
Fixpoint dict_setitem (d : pydict) (k : string) (v : pyval) : pydict :=
  match d with
  | [] => [(k, v)]
  | (k', v') :: d' =>
      if String.eqb k' k then (k', v) :: d' else (k', v') :: dict_setitem d' k v
  end.

(** One [k=v] item of [urlencode]: a [bytes] value is quoted as it is, any
    other value through [str(v)]. *)
Definition urlencode_item (kv : string * pyval) : string :=
  let k := urllib_parse.quote_plus (Str (fst kv)) [] in
  let v := match snd kv with
           | VBytes b => urllib_parse.quote_plus (Bytes b) []
           | v => urllib_parse.quote_plus (Str (py_str v)) []
           end in
  k ++ "=" ++ v.

(** [urlencode(query)] with the default arguments. *)
Definition urlencode (query : pydict) : string :=
  String.concat "&" (map urlencode_item query).

(** ** JSON documents, as [response.json()] returns them *)

#[local] Set Warnings "-register-all".

Inductive json :=
| JNull
| JBool (b : bool)
| JInt (n : Z)
| JFloat (bits : Z)
| JStr (s : string)
| JList (l : list json)
| JDict (d : list (string * json)).

Fixpoint json_lookup (d : list (string * json)) (k : string) : option json :=
  match d with
  | [] => None
  | (k', v) :: d' => if String.eqb k' k then Some v else json_lookup d' k
  end.

(** Nesting depth of a document. *)
Fixpoint json_depth (j : json) : nat :=
  match j with
  | JList l => S (list_max (map json_depth l))
  | JDict d => S (list_max (map (fun kv => json_depth (snd kv)) d))
  | _ => 0
  end.

(** ** Exceptions and results *)

(** An exception object; each constructor stands for an instance of exactly
    the class it is named after. [DanglingReference] is no Python exception:
    it marks a reference that points at no dict, which no run of the class
    produces. *)
Inductive exn :=
| ValueError (msg : string)
| JSONDecodeError
| AttributeError
| TypeError
| RecursionError
| RequestException
| DanglingReference.








Inductive result (A : Type) :=
| Return (a : A)
| Raise (e : exn).
Arguments Return {A} a.
Arguments Raise {A} e.

Definition rbind {A B} (r : result A) (k : A -> result B) : result B :=
  match r with
  | Return a => k a
  | Raise e => Raise e
  end.

(** [obj.get(k, default)]: only a dict has the method. *)
Definition py_get (obj : json) (k : string) (default : json) : result json :=
  match obj with
  | JDict d => Return (match json_lookup d k with Some v => v | None => default end)
  | _ => Raise AttributeError
  end.

(** [v == s] for a string literal [s]. *)
Definition py_eq_str (v : json) (s : string) : bool :=
  match v with
  | JStr s' => String.eqb s' s
  | _ => false
  end.

(** The items a [for] loop draws from a value: the elements of a list, the
    characters of a string, the keys of a dict; the other values are not
    iterable. *)
Definition py_iter (v : json) : result (list json) :=
  match v with
  | JList l => Return l
  | JStr s => Return (map (fun c => JStr (String c EmptyString)) (list_ascii_of_string s))
  | JDict d => Return (map (fun kv => JStr (fst kv)) d)
  | _ => Raise TypeError
  end.

(** [for x in xs: locations.extend(body(x))], stopping at the first
    exception. *)
Fixpoint for_extend {A B} (body : A -> result (list B)) (xs : list A) (locations : list B)
  : result (list B) :=
  match xs with
  | [] => Return locations
  | x :: xs' =>
      match body x with
      | Return found => for_extend body xs' (locations ++ found)
      | Raise e => Raise e
      end
  end.

(** ** The world: heap of dicts, standard output, network *)

Definition loc := nat.

Record Request := {
  method : string;
  url : string;
  headers : list (string * string)
}.

(** What the program reads of a [requests.Response]; [json_body] is the
    document the body parses to, if it parses. *)
Record Response := {
  status_code : Z;
  text : string;
  json_body : option json
}.

Inductive reply :=
| Answer (r : Response)
| Failure.

(** [network] is the remote side: its reply may depend on the requests
    received so far. [frames_left] is what the interpreter's recursion limit
    ([sys.getrecursionlimit()], 1000 unless changed) leaves for the calls
    that nest inside a method called by the running operation. *)
Record world := {
  heap : list pydict;
  stdout : list string;
  sent : list Request;
  network : list Request -> Request -> reply;
  frames_left : nat
}.

Definition M (A : Type) : Type := world -> result A * world.

Definition ret {A} (a : A) : M A := fun w => (Return a, w).
Definition raise {A} (e : exn) : M A := fun w => (Raise e, w).
Definition lift {A} (r : result A) : M A := fun w => (r, w).
Definition bind {A B} (m : M A) (k : A -> M B) : M B :=
  fun w =>
    match m w with
    | (Return a, w') => k a w'
    | (Raise e, w') => (Raise e, w')
    end.

Declare Scope py_scope.
Delimit Scope py_scope with py.
Notation "x <- m ;; k" := (bind m (fun x => k))
  (at level 100, m at next level, right associativity) : py_scope.
Notation "m ;; k" := (bind m (fun _ => k))
  (at level 100, right associativity) : py_scope.
Local Open Scope py_scope.

(** A dict display [{...}] allocates a new object. *)
Definition new_dict (d : pydict) : M loc :=
  fun w => (Return (length (heap w)),
            {| heap := heap w ++ [d]; stdout := stdout w; sent := sent w; network := network w;
               frames_left := frames_left w |}).

Definition deref (p : loc) : M pydict :=
  fun w =>
    match heap w !! p with
    | Some d => (Return d, w)
    | None => (Raise DanglingReference, w)
    end.

(** [p[k] = v] *)
Definition setitem (p : loc) (k : string) (v : pyval) : M unit :=
  fun w =>
    match heap w !! p with
    | Some d => (Return tt,
                 {| heap := <[p := dict_setitem d k v]> (heap w);
                    stdout := stdout w; sent := sent w; network := network w;
                    frames_left := frames_left w |})
    | None => (Raise DanglingReference, w)
    end.

Definition print (line : string) : M unit :=
  fun w => (Return tt,
            {| heap := heap w; stdout := stdout w ++ [line]; sent := sent w; network := network w;
               frames_left := frames_left w |}).

(** [requests.get(url, headers=headers)]: one request goes out, and the
    call returns the response or raises. *)
Definition requests_get (url : string) (headers : list (string * string)) : M Response :=
  fun w =>
    let req := {| method := "GET"; url := url; headers := headers |} in
    let w' := {| heap := heap w; stdout := stdout w; sent := sent w ++ [req];
                 network := network w;
                 frames_left := frames_left w |} in
    match network w (sent w) req with
    | Answer r => (Return r, w')
    | Failure => (Raise RequestException, w')
    end.

(** [response.json()] *)
Definition Response_json (r : Response) : result json :=
  match json_body r with
  | Some j => Return j
  | None => Raise JSONDecodeError
  end.

(** ** singleplatform.py *)

Local Open Scope string_scope.

Inductive SinglePlatformImageType := INTERIOR | EXTERIOR | ITEM | LOGO | UNCATEGORIZED.

Definition value (t : SinglePlatformImageType) : string :=
  match t with
  | INTERIOR => "interior"
  | EXTERIOR => "exterior"
  | ITEM => "item"
  | LOGO => "logo"
  | UNCATEGORIZED => "uncategorized"
  end.

Record SinglePlatformLocationAPI := {
  _client_id : string;
  _client_secret : string
}.

Definition _HOST : string := "https://publishing-api.singleplatform.com".

Definition _generate_signature (self : SinglePlatformLocationAPI) (uri : string) : bytes :=
  let key := encode (_client_secret self) in
  let path := encode uri in
  let data := hmac.digest (hmac.new key path) in
  base64.b64encode data.

Definition _generate_url (self : SinglePlatformLocationAPI) (path : string) (params : loc)
  : M string :=
  d <- deref params ;;
  let uri := path ++ "?" ++ urlencode d in
  setitem params "signature" (VBytes (_generate_signature self uri)) ;;
  d' <- deref params ;;
  let url := _HOST ++ path ++ "?" ++ urlencode d' in
  print ("generated url: " ++ url) ;;
  ret url.

(** [_recurse_locations(parent)], run where the interpreter's recursion
    limit allows [limit] more nested calls, this one included: every call
    takes one frame, and a call that finds none left raises
    [RecursionError]. *)
Fixpoint _recurse_locations (limit : nat) (parent : json) : result (list json) :=
  match limit with
  | O => Raise RecursionError
  | S limit' =>
      rbind (py_get parent "node_type" JNull) (fun node_type =>
      if py_eq_str node_type "location" then Return [parent]
      else
        rbind (py_get parent "nodes" (JList [])) (fun nodes =>
        rbind (py_iter nodes) (fun children =>
        for_extend (_recurse_locations limit') children [])))
  end.

(** A call of a recursive method by an operation that is running: the call
    itself is within the recursion limit (the operation has just come back
    from the deeper calls of [requests.get]), and [frames_left] more calls
    may nest inside it. *)
Definition call_recursive {A} (method : nat -> result A) : M A :=
  fun w => (method (S (frames_left w)), w).

Definition managed_locations (self : SinglePlatformLocationAPI) (business_id cookie : string)
  : M (list json) :=
  let url := "https://my2.singleplatform.com/hierarchy/list/business/" ++ business_id ++ "/" in
  let headers := [("Cookie", cookie)] in
  response <- requests_get url headers ;;
  body <- lift (Response_json response) ;;
  data <- lift (py_get body "root_tier" (JDict [])) ;;
  call_recursive (fun limit => _recurse_locations limit data).

Definition summary (self : SinglePlatformLocationAPI) (location_id : string) (complete : bool)
  : M json :=
  let flag := if complete then "all/" else EmptyString in
  let path := "/locations/" ++ location_id ++ "/" ++ flag in
  params <- new_dict [("client", VStr (_client_id self))] ;;
  url <- _generate_url self path params ;;
  response <- requests_get url [] ;;
  if (status_code response =? 200)%Z then lift (Response_json response)
  else raise (ValueError (text response)).

Definition menu (self : SinglePlatformLocationAPI) (location_id : string) (short : bool)
  : M json :=
  let path := "/locations/" ++ location_id ++ "/menus/" in
  params <- new_dict [("client", VStr (_client_id self))] ;;
  (if short then setitem params "format" (VStr "short") else ret tt) ;;
  url <- _generate_url self path params ;;
  response <- requests_get url [] ;;
  if (status_code response =? 200)%Z then lift (Response_json response)
  else raise (ValueError (text response)).

(** Truth value of an optional integer argument: [None] and 0 are false. *)
Definition truthy (x : option Z) : bool :=
  match x with
  | Some n => negb (n =? 0)%Z
  | None => false
  end.

Definition photos (self : SinglePlatformLocationAPI) (location_id : string)
  (max_height max_width : option Z) (image_type : option SinglePlatformImageType) : M json :=
  let path := "/locations/" ++ location_id ++ "/photos/" in
  params <- new_dict [("client", VStr (_client_id self))] ;;
  (if truthy max_height
   then setitem params "height" (VInt (default 0%Z max_height)) else ret tt) ;;
  (if truthy max_width
   then setitem params "width" (VInt (default 0%Z max_width)) else ret tt) ;;
  (match image_type with
   | Some t => setitem params "type" (VStr (value t))
   | None => ret tt
   end) ;;
  url <- _generate_url self path params ;;
  response <- requests_get url [] ;;
  if (status_code response =? 200)%Z then lift (Response_json response)
  else raise (ValueError (text response)).

(** ** Vocabulary of the statements *)

(** The 'nodes' list of a node. *)
Definition children (t : json) : list json :=
  match t with
  | JDict d =>
      match json_lookup d "nodes" with
      | Some (JList cs) => cs
      | _ => []
      end
  | _ => []
  end.

(** A tree: a dict whose 'nodes' field, when present, is a list of trees. *)
Inductive tree : json -> Prop :=
| tree_leaf d :
    json_lookup d "nodes" = None -> tree (JDict d)
| tree_node d cs :
    json_lookup d "nodes" = Some (JList cs) -> Forall tree cs -> tree (JDict d).

(** A node is addressed by the indices to follow through the 'nodes' lists. *)
Definition path := list nat.

Fixpoint node_at (t : json) (p : path) : option json :=
  match p with
  | [] => Some t
  | i :: p' =>
      match children t !! i with
      | Some c => node_at c p'
      | None => None
      end
  end.

Definition is_location (n : json) : bool :=
  match n with
  | JDict d =>
      match json_lookup d "node_type" with
      | Some v => py_eq_str v "location"
      | None => false
      end
  | _ => false
  end.

(** Some node strictly above [p] is a location. *)
Fixpoint below_location (t : json) (p : path) : bool :=
  match p with
  | [] => false
  | i :: p' =>
      is_location t ||
      match children t !! i with
      | Some c => below_location c p'
      | None => false
      end
  end.

Definition location_at (t : json) (p : path) : Prop :=
  exists n, node_at t p = Some n /\ is_location n = true.

Definition topmost_location_at (t : json) (p : path) : Prop :=
  location_at t p /\
  forall q, q `prefix_of` p -> q <> p -> ~ location_at t q.

(** Depth-first (preorder) order of paths: a node before its descendants,
    an earlier child and all below it before a later child. *)
Fixpoint path_ltb (p q : path) : bool :=
  match p, q with
  | [], [] => false
  | [], _ :: _ => true
  | _ :: _, [] => false
  | i :: p', j :: q' => (i <? j)%nat || ((i =? j)%nat && path_ltb p' q')
  end.

Definition path_lt (p q : path) : Prop := path_ltb p q = true.

(** [rs] lists, in depth-first order and once each, the nodes of [t] at the
    paths that [sel] selects. *)
Definition dfs_listing (sel : json -> path -> Prop) (t : json) (rs : list json) : Prop :=
  exists ps : list path,
    Forall2 (fun p r => node_at t p = Some r) ps rs /\
    StronglySorted path_lt ps /\
    forall p, p ∈ ps <-> sel t p.

(** [child] is the argument of a recursive call made by
    [_recurse_locations] on [parent]. *)
Definition recursive_call (child parent : json) : Prop :=
  exists node_type nodes items,
    py_get parent "node_type" JNull = Return node_type /\
    py_eq_str node_type "location" = false /\
    py_get parent "nodes" (JList []) = Return nodes /\
    py_iter nodes = Return items /\
    child ∈ items.

(** The three public operations that go through [_generate_url]. *)
Inductive api_call :=
| Summary (location_id : string) (complete : bool)
| Menu (location_id : string) (short : bool)
| Photos (location_id : string) (max_height max_width : option Z)
    (image_type : option SinglePlatformImageType).

Definition perform (self : SinglePlatformLocationAPI) (c : api_call) : M json :=
  match c with
  | Summary location_id complete => summary self location_id complete
  | Menu location_id short => menu self location_id short
  | Photos location_id max_height max_width image_type =>
      photos self location_id max_height max_width image_type
  end.

(** [urllib.parse.unquote_plus] on bytes, the inverse of [quote_plus]. *)
Definition unhex (c : ascii) : Z :=
  let n := Z.of_nat (nat_of_ascii c) in
  if (48 <=? n)%Z && (n <=? 57)%Z then n - 48
  else if (65 <=? n)%Z && (n <=? 70)%Z then n - 55
  else if (97 <=? n)%Z && (n <=? 102)%Z then n - 87
  else 0.

Fixpoint unquote_plus (s : string) : bytes :=
  match s with
  | EmptyString => []
  | String "%" (String h (String l s')) => byte_of_Z (unhex h * 16 + unhex l) :: unquote_plus s'
  | String c s' => (if Ascii.eqb c "+" then " "%byte else byte_of_ascii c) :: unquote_plus s'
  end.

(** The URL [_generate_url] returns and the world it leaves, when [params]
    refers to the dict [d]. *)
Definition after_generate_url (self : SinglePlatformLocationAPI) (path : string)
  (params : loc) (d : pydict) (w : world) : string * world :=
  let signature := _generate_signature self (path ++ "?" ++ urlencode d) in
  let d' := dict_setitem d "signature" (VBytes signature) in
  let url := _HOST ++ path ++ "?" ++ urlencode d' in
  (url,
   {| heap := <[params := d']> (heap w);
      stdout := (stdout w ++ [("generated url: " ++ url)%string])%list;
      sent := sent w;
      network := network w;
      frames_left := frames_left w |}).

(** ** Sample inputs *)

Definition api0 : SinglePlatformLocationAPI :=
  {| _client_id := "my client"; _client_secret := "s3cret" |}.

Definition world0 : world :=
  {| heap := [[("client", VStr "my client")]];
     stdout := [];
     sent := [];
     network := fun _ _ => Failure;
     frames_left := 900 |}.

(** What [quote_plus] with no extra safe characters makes of one byte. *)
Definition quote_plus_byte (b : byte) : string :=
  if Byte.eqb b " "%byte then "+" else urllib_parse.quoter [] b.

(** The URL [_generate_url] would return if the signature went into the
    query as the value [render signature]. *)
Definition url_with_signature (render : bytes -> pyval)
  (self : SinglePlatformLocationAPI) (path : string) (d : pydict) : string :=
  let signature := _generate_signature self (path ++ "?" ++ urlencode d) in
  _HOST ++ path ++ "?" ++ urlencode (dict_setitem d "signature" (render signature)).

Definition params0 : pydict := [("client", VStr "my client")].

(** The lines that [summary], [menu] and [photos] end with, each on its
    own copy: sign the URL, send the request, branch on the status code. *)
Definition fetch (self : SinglePlatformLocationAPI) (path : string) (params : loc) : M json :=
  url <- _generate_url self path params ;;
  response <- requests_get url [] ;;
  if (status_code response =? 200)%Z then lift (Response_json response)
  else raise (ValueError (text response)).

Definition GET (url : string) (headers : list (string * string)) : Request :=
  {| method := "GET"; url := url; headers := headers |}.

(** A server that answers every request alike. *)
Definition constant_world (r : Response) : world :=
  {| heap := []; stdout := []; sent := []; network := fun _ _ => Answer r;
     frames_left := 900 |}.

Definition response_ok : Response :=
  {| status_code := 200;
     text := "{}";
     json_body := Some (JDict []) |}.

Definition response_not_found : Response :=
  {| status_code := 404;
     text := "no such location";
     json_body := None |}.

(** A step that prepares the params dict keeps the dict in place and does
    not touch the network. *)
Definition prepares (p : loc) (m : M unit) : Prop :=
  forall w d, heap w !! p = Some d ->
    exists w', m w = (Return tt, w') /\
               (exists d', heap w' !! p = Some d') /\
               sent w' = sent w /\ network w' = network w.

Definition summary_request0 : Request :=
  GET ("https://publishing-api.singleplatform.com/locations/123/all/"
       ++ "?client=my+client&signature=Px%2BRprvfKY%2BfKV7pEh2A%2F6Xq1mo%3D") [].

Definition menu_request0 : Request :=
  GET ("https://publishing-api.singleplatform.com/locations/123/menus/"
       ++ "?client=my+client&format=short&signature=rP2zedsopb8pDXTr5IYSVTWBmJA%3D") [].

(** The items the loop of [_recurse_locations] on [parent] runs over. *)
Definition loop_items (parent : json) : result (list json) :=
  rbind (py_get parent "nodes" (JList [])) py_iter.

Definition sample_tree : json :=
  JDict [("name", JStr "root");
         ("nodes",
          JList [JDict [("node_type", JStr "location"); ("id", JInt 1)];
                 JDict [("node_type", JStr "tier");
                        ("nodes", JList [JDict [("node_type", JStr "location"); ("id", JInt 2)]])];
                 JDict []])].

(** A location that has a location among its 'nodes'. *)
Definition nested_location : json :=
  JDict [("node_type", JStr "location");
         ("nodes", JList [JDict [("node_type", JStr "location")]])].

Ltac prove_tree :=
  lazymatch goal with
  | |- tree _ =>
      first [ apply tree_leaf; reflexivity
            | eapply tree_node; [reflexivity | prove_tree] ]
  | |- List.Forall tree [] => apply List.Forall_nil
  | |- List.Forall tree (_ :: _) => apply List.Forall_cons; prove_tree
  end.

(** Paths of the reported nodes, child by child: the paths found below the
    [j]-th child, each behind the index [k + j]. *)
Fixpoint number_paths (k : nat) (pss : list (list path)) : list path :=
  match pss with
  | [] => []
  | ps :: rest => (map (cons k) ps ++ number_paths (S k) rest)%list
  end.

(** [ps] are the paths of the locations of [t] that lie below no other
    location, in depth-first order, and [rs] the nodes at these paths. *)
Definition listing (t : json) (ps : list path) (rs : list json) : Prop :=
  Forall2 (fun p r => node_at t p = Some r) ps rs /\
  StronglySorted path_lt ps /\
  forall p, p ∈ ps <-> location_at t p /\ below_location t p = false.

Definition malformed_tree : json :=
  JDict [("nodes", JList [JDict [("node_type", JStr "location")]; JDict [("nodes", JInt 3)]])].

(** The request [managed_locations] sends. *)
Definition hierarchy_request (business_id cookie : string) : Request :=
  GET ("https://my2.singleplatform.com/hierarchy/list/business/" ++ business_id ++ "/")
      [("Cookie", cookie)].


Definition response_json_list : Response :=
  {| status_code := 200;
     text := "[]";
     json_body := Some (JList []) |}.

Definition failing_world : world :=
  {| heap := []; stdout := []; sent := []; network := fun _ _ => Failure;
     frames_left := 900 |}.

(** The path and the query parameters of each operation, read off its
    lines: 'client' first, then the optional parameters that were asked
    for, in the order the source sets them. *)
Definition call_path (c : api_call) : string :=
  match c with
  | Summary location_id complete =>
      "/locations/" ++ location_id ++ "/" ++ (if complete then "all/" else EmptyString)
  | Menu location_id _ => "/locations/" ++ location_id ++ "/menus/"
  | Photos location_id _ _ _ => "/locations/" ++ location_id ++ "/photos/"
  end.

Definition size_param (k : string) (x : option Z) : pydict :=
  match x with
  | Some n => if (n =? 0)%Z then [] else [(k, VInt n)]
  | None => []
  end.

Definition call_params (self : SinglePlatformLocationAPI) (c : api_call) : pydict :=
  ("client", VStr (_client_id self)) ::
  match c with
  | Summary _ _ => []
  | Menu _ short => if short then [("format", VStr "short")] else []
  | Photos _ max_height max_width image_type =>
      (size_param "height" max_height ++ size_param "width" max_width ++
       match image_type with
       | Some t => [("type", VStr (value t))]
       | None => []
       end)%list
  end.

(** [m] rewrites the dict at [p] by [f] and does nothing else. *)
Definition prepares_to (p : loc) (m : M unit) (f : pydict -> pydict) : Prop :=
  forall w d, heap w !! p = Some d ->
    exists w', m w = (Return tt, w') /\
               heap w' = <[p := f d]> (heap w) /\
               stdout w' = stdout w /\ sent w' = sent w /\ network w' = network w.

(** Occurrences of a character in a string. *)
Fixpoint count_char (c : ascii) (s : string) : nat :=
  match s with
  | EmptyString => 0
  | String x s' => (if Ascii.eqb x c then 1 else 0) + count_char c s'
  end.

Definition response_ok_not_json : Response :=
  {| status_code := 200;
     text := "<html>maintenance</html>";
     json_body := None |}.

(** The depth the walk of [_recurse_locations] reaches in a tree, counted
    in calls: one for a location or a node without 'nodes', one more than
    its deepest child for any other node. *)
Fixpoint walk_depth (t : json) : nat :=
  match t with
  | JDict d =>
      if is_location t then 1
      else
        S ((fix below (kvs : list (string * json)) : nat :=
              match kvs with
              | [] => 0
              | (k, v) :: rest =>
                  if String.eqb k "nodes"
                  then match v with
                       | JList cs => list_max (map walk_depth cs)
                       | _ => 0
                       end
                  else below rest
              end) d)
  | _ => 1
  end.

(** A tree that is a single branch, [n] tiers above a leaf. *)
Fixpoint chain (n : nat) : json :=
  match n with
  | O => JDict []
  | S n' => JDict [("nodes", JList [chain n'])]
  end.

(** The double quote, and a word between double quotes. *)
Definition dq : string :=
  String (Ascii.Ascii false true false false false true false false) EmptyString.

Definition quoted (s : string) : string := dq ++ s ++ dq.



(** A response that holds one location under its root tier. *)
Definition hierarchy_response : Response :=
  {| status_code := 200;
     text := "{" ++ quoted "root_tier" ++ ": {" ++ quoted "nodes" ++ ": [{"
             ++ quoted "node_type" ++ ": " ++ quoted "location" ++ "}]}}";
     json_body :=
       Some (JDict [("root_tier",
                     JDict [("nodes", JList [JDict [("node_type", JStr "location")]])])]) |}.

(** * Properties *)

(** ** Signature *)

Lemma hmac_digest_rfc2104 (key msg : bytes) :
  hmac.digest (hmac.new key msg) = HMAC_SHA1_rfc2104 key msg.
Proof.
  unfold hmac.digest, hmac._current, hmac.new, HMAC_SHA1_rfc2104.
  unfold hashlib.digest, hashlib.update, hashlib.copy, hashlib.sha1, hashlib.block_size.
  cbn [hashlib.fed hmac.outer hmac.inner app].
  unfold hmac.ljust, hmac.translate, hmac.trans_5C, hmac.trans_36.
  destruct (64 <? length key)%nat; reflexivity.
Qed.

Lemma sha1_digest_length (msg : bytes) : length (hashlib.sha1_digest msg) = 20%nat.
Proof.
  unfold hashlib.sha1_digest.
  destruct (fold_left _ _ _) as [[[[a b] c] d] e].
  reflexivity.
Qed.

(** ** Dicts *)

Lemma dict_get_setitem (d : pydict) k v : dict_get (dict_setitem d k v) k = Some v.
Proof.
  induction d as [|[k' v'] d IH]; cbn.
  - now rewrite String.eqb_refl.
  - destruct (String.eqb k' k) eqn:E; cbn; rewrite E; auto.
Qed.

Lemma dict_setitem_setitem (d : pydict) k v1 v2 :
  dict_setitem (dict_setitem d k v1) k v2 = dict_setitem d k v2.
Proof.
  induction d as [|[k' v'] d IH]; cbn.
  - now rewrite String.eqb_refl.
  - destruct (String.eqb k' k) eqn:E; cbn; rewrite E; congruence.
Qed.

(** The position of [k] after [d[k] = v] does not depend on [v]. *)
Lemma dict_setitem_split (d : pydict) k :
  exists pre post, forall v, dict_setitem d k v = (pre ++ (k, v) :: post)%list.
Proof.
  induction d as [|[k' v'] d (pre & post & IH)].
  - exists [], []. reflexivity.
  - cbn. destruct (String.eqb k' k) eqn:E.
    + apply String.eqb_eq in E. subst k'. exists [], d. reflexivity.
    + exists ((k', v') :: pre), post. intros v. now rewrite IH.
Qed.

(** ** Running [_generate_url] *)

Lemma _generate_url_run self path params d w :
  heap w !! params = Some d ->
  _generate_url self path params w =
    (Return (fst (after_generate_url self path params d w)),
     snd (after_generate_url self path params d w)).
Proof.
  intros Hd.
  unfold _generate_url, bind, deref, setitem, print, ret, after_generate_url.
  assert (Hlt : (params < length (heap w))%nat) by (eapply lookup_lt_Some; eauto).
  rewrite Hd. cbn [heap stdout sent network fst snd].
  rewrite Hd. cbn [heap stdout sent network fst snd].
  rewrite list_lookup_insert_eq by exact Hlt.
  reflexivity.
Qed.

(** C1. [_generate_signature] is the base64 encoding of the HMAC-SHA1 digest
    keyed with the client secret, and the message [_generate_url] signs is
    the path, a question mark and the urlencoding of the params as they
    were on entry: that signature is what the call stores under
    'signature'. *)
Theorem generate_signature_hmac_sha1 self uri path params d w :
  heap w !! params = Some d ->
  _generate_signature self uri =
    base64.b64encode (HMAC_SHA1_rfc2104 (encode (_client_secret self)) (encode uri)) /\
  exists d',
    heap (snd (_generate_url self path params w)) !! params = Some d' /\
    dict_get d' "signature" =
      Some (VBytes (base64.b64encode
                      (HMAC_SHA1_rfc2104 (encode (_client_secret self))
                         (encode (path ++ "?" ++ urlencode d))))).
Proof.
  intros Hd. split.
  - unfold _generate_signature. now rewrite hmac_digest_rfc2104.
  - rewrite (_generate_url_run _ _ _ _ _ Hd). cbn [snd after_generate_url heap].
    eexists. split.
    + apply list_lookup_insert_eq. eapply lookup_lt_Some; eauto.
    + rewrite dict_get_setitem. unfold _generate_signature.
      now rewrite hmac_digest_rfc2104.
Qed.

Lemma generate_signature_hmac_sha1_witness :
  decode (_generate_signature api0 "/locations/123/all/?client=my+client")
    = "Px+RprvfKY+fKV7pEh2A/6Xq1mo=" /\
  exists d',
    heap (snd (_generate_url api0 "/locations/123/all/" 0 world0)) !! 0%nat = Some d' /\
    dict_get d' "signature" = Some (VBytes (encode "Px+RprvfKY+fKV7pEh2A/6Xq1mo=")).
Proof.
  destruct (generate_signature_hmac_sha1 api0 "/locations/123/all/?client=my+client"
              "/locations/123/all/" 0 [("client", VStr "my client")] world0 eq_refl)
    as [Hsig Hurl].
  split.
  - rewrite Hsig. vm_compute. reflexivity.
  - destruct Hurl as (d' & H1 & H2). exists d'. split; [exact H1|].
    rewrite H2. vm_compute. reflexivity.
Defined.

(** ** Strings *)

Lemma append_assoc (a b c : string) : (a ++ b) ++ c = a ++ (b ++ c).
Proof. induction a as [|x a IH]; cbn; congruence. Qed.

Lemma append_nil_r (a : string) : a ++ EmptyString = a.
Proof. induction a as [|x a IH]; cbn; congruence. Qed.

Lemma append_length (a b : string) :
  String.length (a ++ b) = (String.length a + String.length b)%nat.
Proof. induction a as [|x a IH]; cbn; congruence. Qed.

Lemma append_inv_head (a b c : string) : a ++ b = a ++ c -> b = c.
Proof. induction a as [|x a IH]; cbn; [auto|]. intros H. injection H. auto. Qed.

Lemma append_inv_tail (a b c : string) : a ++ c = b ++ c -> a = b.
Proof.
  revert b. induction a as [|x a IH]; intros [|y b] H; cbn in H.
  - reflexivity.
  - apply (f_equal String.length) in H. cbn in H. rewrite append_length in H. lia.
  - apply (f_equal String.length) in H. cbn in H. rewrite append_length in H. lia.
  - injection H as -> H. f_equal. auto.
Qed.

Lemma prefix_append (a b : string) : String.prefix a (a ++ b) = true.
Proof.
  induction a as [|x a IH]; cbn.
  - now destruct b.
  - destruct (ascii_dec x x); [exact IH|congruence].
Qed.

Lemma concat_nil_cons (x : string) (xs : list string) :
  String.concat EmptyString (x :: xs) = x ++ String.concat EmptyString xs.
Proof. destruct xs; cbn; [now rewrite append_nil_r|reflexivity]. Qed.

(** In a joined list, what surrounds one item does not depend on it. *)
Lemma concat_split (sep : string) (xs zs : list string) :
  exists A B, forall y, String.concat sep (xs ++ y :: zs)%list = A ++ y ++ B.
Proof.
  induction xs as [|x xs (A & B & IH)].
  - exists EmptyString.
    exists (match zs with [] => EmptyString | _ => sep ++ String.concat sep zs end).
    intros y. cbn. destruct zs; [now rewrite append_nil_r|reflexivity].
  - exists (x ++ sep ++ A), B. intros y.
    change ((x :: xs) ++ y :: zs)%list with (x :: (xs ++ y :: zs))%list.
    cbn [String.concat]. destruct (xs ++ y :: zs)%list eqn:E.
    + now destruct xs.
    + rewrite <- E, IH. now rewrite !append_assoc.
Qed.

(** ** Percent-encoding *)

Lemma encode_decode (b : bytes) : encode (decode b) = b.
Proof. apply list_byte_of_string_of_list_byte. Qed.

Lemma replace_space_append (a b : string) :
  urllib_parse.replace_space (a ++ b)
  = urllib_parse.replace_space a ++ urllib_parse.replace_space b.
Proof. induction a as [|x a IH]; cbn; congruence. Qed.

Lemma quote_from_bytes_cons x b safe :
  urllib_parse.quote_from_bytes (x :: b) safe
  = urllib_parse.quoter safe x ++ urllib_parse.quote_from_bytes b safe.
Proof. unfold urllib_parse.quote_from_bytes. cbn [map]. apply concat_nil_cons. Qed.

Lemma quoter_no_space x :
  Byte.eqb x " "%byte = false -> urllib_parse.quoter [] x = quote_plus_byte x.
Proof. unfold quote_plus_byte. now intros ->. Qed.

Lemma quoter_space_safe x :
  urllib_parse.replace_space (urllib_parse.quoter [" "%byte] x) = quote_plus_byte x.
Proof. destruct x; reflexivity. Qed.

(** [quote_plus] works byte by byte, on either of its branches. *)
Lemma quote_plus_bytes (b : bytes) :
  urllib_parse.quote_plus (Bytes b) [] = String.concat EmptyString (map quote_plus_byte b).
Proof.
  unfold urllib_parse.quote_plus, urllib_parse.has_space, urllib_parse.quote.
  destruct (urllib_parse.byte_in " "%byte b) eqn:E; cbn [negb app].
  - clear E. induction b as [|x b IH]; [reflexivity|].
    rewrite quote_from_bytes_cons, replace_space_append, IH, quoter_space_safe.
    cbn [map]. now rewrite concat_nil_cons.
  - induction b as [|x b IH]; [reflexivity|].
    cbn in E. apply orb_false_iff in E as [E1 E2].
    rewrite quote_from_bytes_cons, (IH E2). cbn [map]. rewrite concat_nil_cons.
    f_equal. apply quoter_no_space.
    destruct (Byte.eqb x " "%byte) eqn:Ex; [|reflexivity].
    apply Byte.byte_dec_bl in Ex. subst x. discriminate E1.
Qed.

Lemma unquote_plus_byte x s :
  unquote_plus (quote_plus_byte x ++ s) = x :: unquote_plus s.
Proof. destruct x; reflexivity. Qed.

Lemma unquote_plus_quote_plus (b : bytes) :
  unquote_plus (urllib_parse.quote_plus (Bytes b) []) = b.
Proof.
  rewrite quote_plus_bytes. induction b as [|x b IH]; [reflexivity|].
  cbn [map]. now rewrite concat_nil_cons, unquote_plus_byte, IH.
Qed.

Lemma quote_plus_bytes_inj b1 b2 :
  urllib_parse.quote_plus (Bytes b1) [] = urllib_parse.quote_plus (Bytes b2) [] -> b1 = b2.
Proof.
  intros H. apply (f_equal unquote_plus) in H.
  now rewrite !unquote_plus_quote_plus in H.
Qed.

(** [urlencode] quotes a [bytes] value as it quotes the text it spells. *)
Lemma quote_plus_Bytes_Str (b : bytes) :
  urllib_parse.quote_plus (Bytes b) [] = urllib_parse.quote_plus (Str (decode b)) [].
Proof.
  unfold urllib_parse.quote_plus, urllib_parse.has_space, urllib_parse.quote.
  rewrite encode_decode.
  destruct (String.eqb (decode b) EmptyString) eqn:E; [|reflexivity].
  apply String.eqb_eq in E.
  assert (b = []) as -> by (rewrite <- (encode_decode b), E; reflexivity).
  reflexivity.
Qed.

Lemma urlencode_item_Bytes_Str k (b : bytes) :
  urlencode_item (k, VBytes b) = urlencode_item (k, VStr (decode b)).
Proof. unfold urlencode_item. cbn [fst snd py_str]. now rewrite quote_plus_Bytes_Str. Qed.

(** ** [urlencode] at the key that was set last *)

Lemma urlencode_setitem_split (d : pydict) k :
  exists A B, forall v, urlencode (dict_setitem d k v) = A ++ urlencode_item (k, v) ++ B.
Proof.
  destruct (dict_setitem_split d k) as (pre & post & Hd).
  destruct (concat_split "&" (map urlencode_item pre) (map urlencode_item post)) as (A & B & H).
  exists A, B. intros v. unfold urlencode. rewrite Hd, map_app. cbn [map]. apply H.
Qed.

Lemma urlencode_setitem_Bytes_Str (d : pydict) k b :
  urlencode (dict_setitem d k (VBytes b)) = urlencode (dict_setitem d k (VStr (decode b))).
Proof.
  destruct (urlencode_setitem_split d k) as (A & B & H).
  now rewrite !H, urlencode_item_Bytes_Str.
Qed.

Lemma urlencode_setitem_inj (d : pydict) k b1 b2 :
  urlencode (dict_setitem d k (VBytes b1)) = urlencode (dict_setitem d k (VBytes b2)) ->
  b1 = b2.
Proof.
  destruct (urlencode_setitem_split d k) as (A & B & H). rewrite !H.
  intros E. apply append_inv_head, append_inv_tail in E.
  unfold urlencode_item in E. cbn [fst snd] in E.
  apply append_inv_head, append_inv_head in E.
  now apply quote_plus_bytes_inj.
Qed.

Lemma setitem_item_in (d : pydict) k v :
  In (urlencode_item (k, v)) (map urlencode_item (dict_setitem d k v)).
Proof.
  destruct (dict_setitem_split d k) as (pre & post & ->).
  rewrite map_app. apply in_or_app. right. now left.
Qed.

(** ** The generated URL *)

(** C4. The URL [_generate_url] returns is the fixed host, the path, a
    question mark and the urlencoding of the params with the 'signature' key
    set; it begins with the host and the signature is one of the query's
    items. *)
Theorem generate_url_host_path_query self path params d w :
  heap w !! params = Some d ->
  exists url d',
    fst (_generate_url self path params w) = Return url /\
    heap (snd (_generate_url self path params w)) !! params = Some d' /\
    d' = dict_setitem d "signature"
           (VBytes (_generate_signature self (path ++ "?" ++ urlencode d))) /\
    url = _HOST ++ path ++ "?" ++ urlencode d' /\
    String.prefix "https://publishing-api.singleplatform.com" url = true /\
    exists signature,
      dict_get d' "signature" = Some signature /\
      In (urlencode_item ("signature", signature)) (map urlencode_item d').
Proof.
  intros Hd. rewrite (_generate_url_run _ _ _ _ _ Hd).
  cbn [fst snd after_generate_url heap].
  do 2 eexists. repeat split.
  - apply list_lookup_insert_eq. eapply lookup_lt_Some; eauto.
  - apply (prefix_append _HOST).
  - eexists. split; [apply dict_get_setitem|apply setitem_item_in].
Qed.

Lemma generate_url_host_path_query_witness :
  exists url d',
    fst (_generate_url api0 "/locations/123/all/" 0 world0) = Return url /\
    heap (snd (_generate_url api0 "/locations/123/all/" 0 world0)) !! 0%nat = Some d' /\
    d' = dict_setitem params0 "signature"
           (VBytes (_generate_signature api0 ("/locations/123/all/" ++ "?" ++ urlencode params0))) /\
    url = _HOST ++ "/locations/123/all/" ++ "?" ++ urlencode d' /\
    String.prefix "https://publishing-api.singleplatform.com" url = true /\
    exists signature,
      dict_get d' "signature" = Some signature /\
      In (urlencode_item ("signature", signature)) (map urlencode_item d').
Proof.
  exact (generate_url_host_path_query api0 "/locations/123/all/" 0 params0 world0 eq_refl).
Defined.

(** C5. The signature depends on the client secret and the uri only: two
    clients with the same secret, whatever their ids, sign equal uris
    alike. *)
Theorem generate_signature_deterministic self1 self2 uri1 uri2 :
  _client_secret self1 = _client_secret self2 ->
  uri1 = uri2 ->
  _generate_signature self1 uri1 = _generate_signature self2 uri2.
Proof. intros Hs ->. unfold _generate_signature. now rewrite Hs. Qed.

Lemma generate_signature_deterministic_witness :
  _generate_signature api0 "/locations/123/?client=a"
  = _generate_signature {| _client_id := "another client"; _client_secret := "s3cret" |}
      "/locations/123/?client=a".
Proof.
  apply (generate_signature_deterministic api0
           {| _client_id := "another client"; _client_secret := "s3cret" |}
           "/locations/123/?client=a" "/locations/123/?client=a");
    reflexivity.
Defined.

(** The claim C8 as it is worded fails: the signature does not go into the
    URL as the text of a bytes literal. *)
Lemma generate_url_signature_not_repr :
  heap world0 !! 0%nat = Some params0 /\
  fst (_generate_url api0 "/locations/123/all/" 0 world0)
  <> Return (url_with_signature (fun b => VStr (bytes_repr b)) api0 "/locations/123/all/" params0).
Proof. split; [reflexivity|]. vm_compute. discriminate. Qed.

(** C8, amended. [_generate_signature] returns bytes, and it is a bytes
    value that [_generate_url] stores under 'signature'; [urlencode] quotes
    a bytes value as it is, so the 'signature' parameter of the URL is the
    URL-encoding of the base64 text itself. *)
Theorem generate_url_signature_is_quoted_base64 self path params d w :
  heap w !! params = Some d ->
  let signature := _generate_signature self (path ++ "?" ++ urlencode d) in
  (exists d', heap (snd (_generate_url self path params w)) !! params = Some d' /\
              dict_get d' "signature" = Some (VBytes signature)) /\
  fst (_generate_url self path params w)
  = Return (url_with_signature (fun b => VStr (decode b)) self path d) /\
  urlencode_item ("signature", VBytes signature)
  = "signature=" ++ urllib_parse.quote_plus (Str (decode signature)) [] /\
  unquote_plus (urllib_parse.quote_plus (Str (decode signature)) []) = signature.
Proof.
  intros Hd signature. rewrite (_generate_url_run _ _ _ _ _ Hd).
  cbn [fst snd after_generate_url heap]. repeat split.
  - eexists. split.
    + apply list_lookup_insert_eq. eapply lookup_lt_Some; eauto.
    + apply dict_get_setitem.
  - unfold url_with_signature. now rewrite urlencode_setitem_Bytes_Str.
  - now rewrite urlencode_item_Bytes_Str.
  - rewrite <- quote_plus_Bytes_Str. apply unquote_plus_quote_plus.
Qed.

Lemma generate_url_signature_is_quoted_base64_witness :
  fst (_generate_url api0 "/locations/123/all/" 0 world0)
  = Return ("https://publishing-api.singleplatform.com/locations/123/all/"
            ++ "?client=my+client&signature=Px%2BRprvfKY%2BfKV7pEh2A%2F6Xq1mo%3D").
Proof.
  destruct (generate_url_signature_is_quoted_base64 api0 "/locations/123/all/" 0 params0
              world0 eq_refl) as (_ & H & _).
  rewrite H. vm_compute. reflexivity.
Defined.

Lemma dict_setitem_fresh (d : pydict) k v :
  dict_get d k = None -> dict_setitem d k v = (d ++ [(k, v)])%list.
Proof.
  induction d as [|[k' v'] d IH]; cbn; [reflexivity|].
  destruct (String.eqb k' k); [discriminate|]. intros H. now rewrite IH.
Qed.

(** ** Requests *)

Lemma bind_assoc {A B C} (m : M A) (f : A -> M B) (g : B -> M C) w :
  bind (bind m f) g w = bind m (fun x => bind (f x) g) w.
Proof. unfold bind. destruct (m w) as [[a|e] w']; reflexivity. Qed.

Lemma bind_ext {A B} (m : M A) (f g : A -> M B) w :
  (forall x w', f x w' = g x w') -> bind m f w = bind m g w.
Proof. intros H. unfold bind. destruct (m w) as [[a|e] w']; [apply H|reflexivity]. Qed.

Lemma setitem_run p k v d w :
  heap w !! p = Some d ->
  setitem p k v w =
    (Return tt,
     {| heap := <[p := dict_setitem d k v]> (heap w);
        stdout := stdout w; sent := sent w; network := network w;
        frames_left := frames_left w |}).
Proof. intros H. unfold setitem. now rewrite H. Qed.

Lemma fetch_run self path params d w :
  heap w !! params = Some d ->
  exists url w',
    fetch self path params w =
      (match network w (sent w) (GET url []) with
       | Answer response =>
           if (status_code response =? 200)%Z then Response_json response
           else Raise (ValueError (text response))
       | Failure => Raise RequestException
       end, w') /\
    sent w' = (sent w ++ [GET url []])%list /\
    String.prefix _HOST url = true.
Proof.
  intros Hd. exists (fst (after_generate_url self path params d w)).
  unfold fetch, bind. rewrite (_generate_url_run _ _ _ _ _ Hd).
  unfold requests_get. cbn [fst snd after_generate_url heap stdout sent network].
  fold (GET (_HOST ++ path ++ "?" ++
               urlencode (dict_setitem d "signature"
                            (VBytes (_generate_signature self (path ++ "?" ++ urlencode d))))) []).
  destruct (network w (sent w) _) as [response|].
  - destruct (status_code response =? 200)%Z; eexists; (split; [reflexivity|]);
      (split; [reflexivity|apply (prefix_append _HOST)]).
  - eexists. split; [reflexivity|]. split; [reflexivity|apply (prefix_append _HOST)].
Qed.

Lemma prepares_ret p : prepares p (ret tt).
Proof. intros w d H. exists w. eauto. Qed.

Lemma prepares_setitem p k v : prepares p (setitem p k v).
Proof.
  intros w d H. eexists. split; [apply (setitem_run _ _ _ _ _ H)|].
  cbn [heap sent network]. split; [|auto].
  eexists. apply list_lookup_insert_eq. eapply lookup_lt_Some; eauto.
Qed.

Lemma prepared_fetch_run self path p (m : M unit) w d :
  prepares p m ->
  heap w !! p = Some d ->
  exists url w',
    (m ;; fetch self path p) w =
      (match network w (sent w) (GET url []) with
       | Answer response =>
           if (status_code response =? 200)%Z then Response_json response
           else Raise (ValueError (text response))
       | Failure => Raise RequestException
       end, w') /\
    sent w' = (sent w ++ [GET url []])%list /\
    String.prefix _HOST url = true.
Proof.
  intros Hm Hd. destruct (Hm w d Hd) as (w1 & Hrun & (d' & Hd') & Hsent & Hnet).
  destruct (fetch_run self path p d' w1 Hd') as (url & w' & Hf & Hs & Hp).
  exists url, w'. unfold bind at 1. rewrite Hrun, Hf, Hsent, Hnet.
  split; [reflexivity|]. now rewrite Hs, Hsent.
Qed.

Lemma prepares_seq p (m1 m2 : M unit) :
  prepares p m1 -> prepares p m2 -> prepares p (m1 ;; m2).
Proof.
  intros H1 H2 w d Hd.
  destruct (H1 w d Hd) as (w1 & Hrun1 & (d1 & Hd1) & Hs1 & Hn1).
  destruct (H2 w1 d1 Hd1) as (w2 & Hrun2 & Hd2 & Hs2 & Hn2).
  exists w2. unfold bind. rewrite Hrun1, Hrun2.
  split; [reflexivity|]. split; [exact Hd2|]. split; congruence.
Qed.

(** Each of the three operations sends one request, to a URL on the fixed
    host, and its outcome is the status dispatch on the reply. *)
Lemma perform_run self call w :
  exists url w',
    perform self call w =
      (match network w (sent w) (GET url []) with
       | Answer response =>
           if (status_code response =? 200)%Z then Response_json response
           else Raise (ValueError (text response))
       | Failure => Raise RequestException
       end, w') /\
    sent w' = (sent w ++ [GET url []])%list /\
    String.prefix _HOST url = true.
Proof.
  set (d0 := [("client", VStr (_client_id self))] : pydict).
  set (p := length (heap w)).
  set (w1 := {| heap := (heap w ++ [d0])%list; stdout := stdout w;
                sent := sent w; network := network w;
                frames_left := frames_left w |}).
  assert (Hnew : forall k : loc -> M json, (params <- new_dict d0 ;; k params) w = k p w1)
    by reflexivity.
  assert (Hat : heap w1 !! p = Some d0) by (apply list_lookup_middle; reflexivity).
  destruct call as [location_id complete|location_id short
                   |location_id max_height max_width image_type]; cbn [perform].
  - unfold summary. fold d0. rewrite Hnew.
    destruct (fetch_run self ("/locations/" ++ location_id ++ "/"
                                ++ (if complete then "all/" else EmptyString))
                p d0 w1 Hat)
      as (url & w' & Hf & Hs & Hp).
    exists url, w'. split; [exact Hf|]. now split.
  - unfold menu. fold d0. rewrite Hnew.
    destruct (prepared_fetch_run self ("/locations/" ++ location_id ++ "/menus/") p
                (if short then setitem p "format" (VStr "short") else ret tt)
                w1 d0 ltac:(destruct short; [apply prepares_setitem|apply prepares_ret])
                Hat)
      as (url & w' & Hf & Hs & Hp).
    exists url, w'. split; [exact Hf|]. now split.
  - unfold photos. fold d0. rewrite Hnew.
    assert (Hprep : prepares p
              ((if truthy max_height
                then setitem p "height" (VInt (default 0%Z max_height)) else ret tt) ;;
               (if truthy max_width
                then setitem p "width" (VInt (default 0%Z max_width)) else ret tt) ;;
               match image_type with
               | Some t => setitem p "type" (VStr (value t))
               | None => ret tt
               end)).
    { repeat apply prepares_seq.
      - destruct (truthy max_height); [apply prepares_setitem|apply prepares_ret].
      - destruct (truthy max_width); [apply prepares_setitem|apply prepares_ret].
      - destruct image_type; [apply prepares_setitem|apply prepares_ret]. }
    destruct (prepared_fetch_run self ("/locations/" ++ location_id ++ "/photos/") p _
                w1 d0 Hprep Hat)
      as (url & w' & Hf & Hs & Hp).
    exists url, w'. split; [|now split].
    etransitivity; [|exact Hf]. unfold fetch.
    symmetry. rewrite bind_assoc. apply bind_ext. intros _ w2.
    apply bind_assoc.
Qed.

(** C2. A call to [summary], [menu] or [photos] sends one request and no
    more. When the response has status 200 the call returns what
    [response.json()] gives, the parsed body as it is; on any other status
    it raises [ValueError] with the response text as its message. *)
Theorem api_call_status_dispatch self call w r w' req response :
  perform self call w = (r, w') ->
  last (sent w') = Some req ->
  network w (sent w) req = Answer response ->
  sent w' = (sent w ++ [req])%list /\
  method req = "GET" /\
  (status_code response = 200%Z ->
   r = Response_json response /\ forall j, json_body response = Some j -> r = Return j) /\
  (status_code response <> 200%Z -> r = Raise (ValueError (text response))).
Proof.
  intros Hrun Hlast Hnet.
  destruct (perform_run self call w) as (url & w1 & Hrun1 & Hsent & _).
  rewrite Hrun in Hrun1. injection Hrun1 as Hr <-.
  rewrite Hsent, last_snoc in Hlast. injection Hlast as <-.
  rewrite Hnet in Hr. subst r.
  split; [exact Hsent|]. split; [reflexivity|]. split.
  - intros ->. cbn. split; [reflexivity|].
    intros j Hj. unfold Response_json. now rewrite Hj.
  - intros Hstatus. apply Z.eqb_neq in Hstatus. now rewrite Hstatus.
Qed.

Lemma api_call_status_dispatch_witness :
  fst (perform api0 (Summary "123" true) (constant_world response_ok)) = Return (JDict []) /\
  fst (perform api0 (Menu "123" true) (constant_world response_not_found))
  = Raise (ValueError "no such location") /\
  sent (snd (perform api0 (Menu "123" true) (constant_world response_not_found)))
  = [menu_request0].
Proof.
  pose proof (api_call_status_dispatch api0 (Summary "123" true) (constant_world response_ok)
                _ _ summary_request0 response_ok
                (surjective_pairing _) ltac:(vm_compute; reflexivity) eq_refl)
    as (_ & _ & Hok & _).
  pose proof (api_call_status_dispatch api0 (Menu "123" true)
                (constant_world response_not_found)
                _ _ menu_request0 response_not_found
                (surjective_pairing _) ltac:(vm_compute; reflexivity) eq_refl)
    as (Hsent & _ & _ & Herr).
  split; [|split].
  - exact (proj2 (Hok eq_refl) _ eq_refl).
  - apply Herr. discriminate.
  - exact Hsent.
Defined.

(** ** The hierarchy endpoint *)

(** C6. [managed_locations] sends one GET request to the hierarchy URL of
    the business, with the cookie as its 'Cookie' header, and returns
    [_recurse_locations] of the 'root_tier' field of the response document:
    the empty list when the document has no such field. *)
Theorem managed_locations_request_and_result self business_id cookie w response body :
  let req :=
    {| method := "GET";
       url := "https://my2.singleplatform.com/hierarchy/list/business/" ++ business_id ++ "/";
       headers := [("Cookie", cookie)] |} in
  network w (sent w) req = Answer response ->
  json_body response = Some (JDict body) ->
  let out := managed_locations self business_id cookie w in
  sent (snd out) = (sent w ++ [req])%list /\
  fst out = _recurse_locations (S (frames_left w))
              (match json_lookup body "root_tier" with
               | Some root_tier => root_tier
               | None => JDict []
               end) /\
  (json_lookup body "root_tier" = None -> fst out = Return []).
Proof.
  intros req Hnet Hbody out.
  assert (Hout : out =
            (_recurse_locations (S (frames_left w))
               (match json_lookup body "root_tier" with
                | Some root_tier => root_tier
                | None => JDict []
                end),
             {| heap := heap w; stdout := stdout w; sent := (sent w ++ [req])%list;
                network := network w; frames_left := frames_left w |})).
  { subst out. unfold managed_locations, bind, requests_get, lift, call_recursive.
    fold req. rewrite Hnet. unfold Response_json. rewrite Hbody. reflexivity. }
  rewrite Hout. cbn [fst snd sent].
  split; [reflexivity|]. split; [reflexivity|].
  intros ->. reflexivity.
Qed.

Lemma managed_locations_request_and_result_witness :
  let w := constant_world response_ok in
  let out := managed_locations api0 "42" "sessionid=abc" w in
  sent (snd out) = [GET "https://my2.singleplatform.com/hierarchy/list/business/42/"
                      [("Cookie", "sessionid=abc")]] /\
  fst out = Return [] /\
  fst (managed_locations api0 "42" "sessionid=abc" (constant_world hierarchy_response))
  = Return [JDict [("node_type", JStr "location")]].
Proof.
  intros w out.
  destruct (managed_locations_request_and_result api0 "42" "sessionid=abc" w response_ok []
              eq_refl eq_refl) as (Hsent & _ & Hempty).
  split; [exact Hsent|]. split; [exact (Hempty eq_refl)|].
  destruct (managed_locations_request_and_result api0 "42" "sessionid=abc"
              (constant_world hierarchy_response) hierarchy_response _
              eq_refl eq_refl) as (_ & Hres & _).
  rewrite Hres. reflexivity.
Defined.

(** ** Documents and their depth *)

Lemma list_max_ge (l : list nat) (n : nat) : In n l -> (n <= list_max l)%nat.
Proof.
  intros H.
  pose proof (proj1 (list_max_le l (list_max l)) (Nat.le_refl _)) as Hall.
  rewrite List.Forall_forall in Hall. now apply Hall.
Qed.

Lemma json_depth_elem (l : list json) (c : json) :
  In c l -> (json_depth c < json_depth (JList l))%nat.
Proof.
  intros H. cbn. apply Nat.lt_succ_r, list_max_ge, in_map, H.
Qed.

Lemma json_depth_lookup (d : list (string * json)) k v :
  json_lookup d k = Some v -> (json_depth v < json_depth (JDict d))%nat.
Proof.
  intros H. cbn. apply Nat.lt_succ_r, list_max_ge.
  induction d as [|[k' v'] d IH]; [discriminate|]. cbn in H |- *.
  destruct (String.eqb k' k); [injection H as ->; now left|right; auto].
Qed.

(** What the loop runs over lies strictly less deep than the parent. *)
Lemma loop_items_depth parent items c :
  loop_items parent = Return items -> In c items ->
  (json_depth c < json_depth parent)%nat.
Proof.
  unfold loop_items. destruct parent as [| | | | | |d]; try discriminate.
  cbn [py_get rbind].
  destruct (json_lookup d "nodes") as [nodes|] eqn:E.
  - apply json_depth_lookup in E.
    destruct nodes as [| | | |s|l|d']; cbn [py_iter]; try discriminate;
      intros [= <-] Hin.
    + apply in_map_iff in Hin as (a & <- & _). cbn. lia.
    + apply json_depth_elem in Hin. lia.
    + apply in_map_iff in Hin as (a & <- & _). cbn. lia.
  - cbn. intros [= <-] [].
Qed.

(** ** The loop *)

Lemma for_extend_Return {A B} (body : A -> result (list B)) xs acc rs :
  for_extend body xs acc = Return rs <->
  exists rss, Forall2 (fun x r => body x = Return r) xs rss /\ rs = (acc ++ concat rss)%list.
Proof.
  revert acc. induction xs as [|x xs IH]; intros acc; cbn.
  - split.
    + intros [= <-]. exists []. split; [constructor|]. cbn. now rewrite app_nil_r.
    + intros (rss & H & ->). inversion H. cbn. now rewrite app_nil_r.
  - destruct (body x) as [found|e] eqn:E.
    + rewrite IH. split.
      * intros (rss & H & ->). exists (found :: rss). split; [now constructor|].
        cbn. now rewrite app_assoc.
      * intros (rss & H & ->). inversion H as [|? r ? rss' Hr Hrest]; subst.
        assert (r = found) as -> by congruence.
        exists rss'. split; [exact Hrest|]. cbn. now rewrite app_assoc.
    + split; [discriminate|].
      intros (rss & H & _). inversion H; subst. congruence.
Qed.

Lemma for_extend_Raise {A B} (body : A -> result (list B)) xs acc e :
  for_extend body xs acc = Raise e -> exists x, In x xs /\ body x = Raise e.
Proof.
  revert acc. induction xs as [|x xs IH]; intros acc; cbn; [discriminate|].
  destruct (body x) as [found|e'] eqn:E.
  - intros H. destruct (IH _ H) as (y & Hy & Hb). exists y. auto.
  - intros [= ->]. exists x. auto.
Qed.

Lemma for_extend_ext {A B} (f g : A -> result (list B)) xs acc :
  (forall x, In x xs -> f x = g x) -> for_extend f xs acc = for_extend g xs acc.
Proof.
  revert acc. induction xs as [|x xs IH]; intros acc H; cbn; [reflexivity|].
  rewrite <- (H x) by now left. destruct (f x); [|reflexivity].
  apply IH. intros y Hy. apply H. now right.
Qed.

(** ** Recursion depth *)

Lemma _recurse_locations_unfold limit parent :
  _recurse_locations (S limit) parent =
    rbind (py_get parent "node_type" JNull) (fun node_type =>
    if py_eq_str node_type "location" then Return [parent]
    else rbind (loop_items parent) (fun children =>
         for_extend (_recurse_locations limit) children [])).
Proof.
  cbn [_recurse_locations]. unfold loop_items.
  destruct (py_get parent "node_type" JNull) as [node_type|]; cbn [rbind]; [|reflexivity].
  destruct (py_eq_str node_type "location"); [reflexivity|].
  destruct (py_get parent "nodes" (JList [])); reflexivity.
Qed.

(** The loop gives, under a higher limit, what it gave under a lower one,
    unless the lower one was exceeded. *)
Lemma for_extend_stable {A B} (f g : A -> result (list B)) xs acc :
  (forall x, In x xs -> f x <> Raise RecursionError -> g x = f x) ->
  for_extend f xs acc <> Raise RecursionError ->
  for_extend g xs acc = for_extend f xs acc.
Proof.
  revert acc. induction xs as [|x xs IH]; intros acc H Hne; cbn in *; [reflexivity|].
  destruct (f x) as [found|e] eqn:E.
  - rewrite (H x) by (auto; congruence). rewrite E. apply IH; [|exact Hne].
    intros y Hy. apply H. now right.
  - rewrite (H x) by (auto; congruence). now rewrite E.
Qed.

Lemma _recurse_locations_more n m parent :
  _recurse_locations n parent <> Raise RecursionError ->
  (n <= m)%nat ->
  _recurse_locations m parent = _recurse_locations n parent.
Proof.
  revert m parent. induction n as [|n IH]; intros m parent Hne Hle; [now destruct Hne|].
  destruct m as [|m]; [lia|].
  rewrite !_recurse_locations_unfold in *.
  destruct (py_get parent "node_type" JNull) as [node_type|]; cbn [rbind] in *; [|reflexivity].
  destruct (py_eq_str node_type "location"); [reflexivity|].
  destruct (loop_items parent) as [items|]; cbn [rbind] in *; [|reflexivity].
  apply for_extend_stable; [|exact Hne].
  intros c _ Hc. apply IH; [exact Hc|lia].
Qed.

Lemma tree_children t : tree t -> loop_items t = Return (children t) /\ Forall tree (children t).
Proof.
  intros [d H|d cs H Hcs]; unfold loop_items; cbn; rewrite H; cbn; auto.
Qed.

Lemma tree_get t k default : tree t -> exists v, py_get t k default = Return v.
Proof. intros [d H|d cs H Hcs]; cbn; eauto. Qed.

Lemma is_location_get (d : list (string * json)) v :
  py_get (JDict d) "node_type" JNull = Return v ->
  py_eq_str v "location" = is_location (JDict d).
Proof.
  cbn. intros [= <-]. now destruct (json_lookup d "node_type").
Qed.

(** ** The depth of the walk *)

Lemma walk_depth_unfold (d : list (string * json)) :
  walk_depth (JDict d) =
    if is_location (JDict d) then 1%nat
    else S (list_max (map walk_depth (children (JDict d)))).
Proof.
  cbn [walk_depth]. destruct (is_location (JDict d)); [reflexivity|]. f_equal.
  unfold children. induction d as [|[k v] d IH]; [reflexivity|].
  cbn [json_lookup]. destruct (String.eqb k "nodes"); [|exact IH].
  now destruct v.
Qed.

Lemma walk_depth_pos t : (1 <= walk_depth t)%nat.
Proof.
  destruct t; cbn [walk_depth]; try lia.
  destruct (is_location (JDict d)); lia.
Qed.

Lemma list_max_lt_inv (l : list nat) (n : nat) :
  (n < list_max l)%nat -> exists x, In x l /\ (n < x)%nat.
Proof.
  induction l as [|x l IH]; cbn [list_max fold_right]; [lia|].
  intros H. destruct (Nat.max_spec x (list_max l)) as [[_ E]|[_ E]];
    change (fold_right Init.Nat.max 0%nat l) with (list_max l) in H;
    rewrite E in H.
  - destruct (IH H) as (y & Hy & Hlt). exists y. split; [now right|exact Hlt].
  - exists x. split; [now left|exact H].
Qed.

(** On a tree, a limit that covers the walk gives a list. *)
Lemma _recurse_locations_tree n t :
  tree t -> (walk_depth t <= n)%nat -> exists rs, _recurse_locations n t = Return rs.
Proof.
  revert t. induction n as [|n IH]; intros t Ht Hn.
  { pose proof (walk_depth_pos t). lia. }
  rewrite _recurse_locations_unfold.
  destruct (tree_children t Ht) as (Hitems & Hcs).
  destruct Ht as [d _|d cs _ _];
    (cbn [py_get rbind];
     rewrite (is_location_get d _ eq_refl);
     rewrite walk_depth_unfold in Hn;
     destruct (is_location (JDict d)); [eauto|];
     rewrite Hitems; cbn [rbind];
     assert (Hall : List.Forall (fun c => exists rs, _recurse_locations n c = Return rs)
                      (children (JDict d)));
     [ apply List.Forall_forall; intros c Hc; apply IH;
       [ rewrite Forall_forall in Hcs; apply Hcs, list_elem_of_In, Hc
       | apply Nat.succ_le_mono in Hn;
         pose proof (list_max_ge (map walk_depth (children (JDict d))) (walk_depth c)
                       (in_map walk_depth _ _ Hc)); lia ]
     | clear Hitems Hcs Hn; generalize (@nil json);
       induction Hall as [|c cs' (rs & Hc) _ IHcs]; intros acc; cbn; [eauto|];
       rewrite Hc; apply IHcs ]).
Qed.

Lemma for_extend_first_raise {A B} (f : A -> result (list B)) xs acc e :
  (forall x, In x xs -> (exists r, f x = Return r) \/ f x = Raise e) ->
  (exists x, In x xs /\ f x = Raise e) ->
  for_extend f xs acc = Raise e.
Proof.
  revert acc. induction xs as [|x xs IH]; intros acc Hall (y & Hy & Hraise); [destruct Hy|].
  cbn. destruct (Hall x (or_introl eq_refl)) as [(r & Hr)|Hr]; rewrite Hr; [|reflexivity].
  apply IH.
  - intros z Hz. apply Hall. now right.
  - destruct Hy as [<-|Hy]; [congruence|]. eauto.
Qed.

(** On a tree, a limit that does not cover the walk is exceeded. *)
Lemma _recurse_locations_overflow n t :
  tree t -> (n < walk_depth t)%nat -> _recurse_locations n t = Raise RecursionError.
Proof.
  revert t. induction n as [|n IH]; intros t Ht Hn; [reflexivity|].
  rewrite _recurse_locations_unfold.
  destruct (tree_children t Ht) as (Hitems & Hcs).
  destruct Ht as [d _|d cs _ _];
    (cbn [py_get rbind];
     rewrite (is_location_get d _ eq_refl);
     rewrite walk_depth_unfold in Hn;
     destruct (is_location (JDict d)); [lia|];
     rewrite Hitems; cbn [rbind];
     apply for_extend_first_raise;
     [ intros c Hc;
       assert (Hct : tree c) by (rewrite Forall_forall in Hcs; apply Hcs, list_elem_of_In, Hc);
       destruct (Nat.le_gt_cases (walk_depth c) n) as [Hle|Hgt];
       [ left; now apply _recurse_locations_tree | right; now apply IH ]
     | apply Nat.succ_lt_mono in Hn;
       apply list_max_lt_inv in Hn as (x & Hx & Hlt);
       apply in_map_iff in Hx as (c & <- & Hc);
       exists c; split; [exact Hc|];
       apply IH; [rewrite Forall_forall in Hcs; apply Hcs, list_elem_of_In, Hc|exact Hlt] ]).
Qed.

Lemma recursive_call_depth child parent :
  recursive_call child parent -> (json_depth child < json_depth parent)%nat.
Proof.
  intros (node_type & nodes & items & _ & _ & Hget & Hiter & Hin).
  apply (loop_items_depth parent items); [|now apply list_elem_of_In].
  unfold loop_items. now rewrite Hget.
Qed.

Lemma sample_tree_is_tree : tree sample_tree.
Proof. prove_tree. Qed.

Lemma chain_is_tree n : tree (chain n).
Proof.
  induction n as [|n IH]; cbn [chain].
  - now apply tree_leaf.
  - eapply tree_node; [reflexivity|]. now constructor.
Qed.

Lemma walk_depth_chain n : walk_depth (chain n) = S n.
Proof.
  induction n as [|n IH]; [reflexivity|].
  cbn [chain]. rewrite walk_depth_unfold. cbn. rewrite IH. now rewrite Nat.max_0_r.
Qed.

(** A walk takes one call for each tier of the tree, and a tier takes two
    levels of nesting in the document: a dict and its 'nodes' list. *)
Lemma walk_depth_json_depth t : tree t -> (2 * walk_depth t <= S (json_depth t))%nat.
Proof.
  assert (H : forall n t, (json_depth t <= n)%nat -> tree t ->
                          (2 * walk_depth t <= S (json_depth t))%nat);
    [|intros Ht; now apply (H (json_depth t))].
  clear t. induction n as [|n IH]; intros t Hn Ht.
  { destruct Ht; cbn in Hn; lia. }
  destruct Ht as [d Hd|d cs Hd Hcs]; rewrite walk_depth_unfold;
    (destruct (is_location (JDict d)); [cbn; lia|]); unfold children; rewrite Hd.
  - cbn. lia.
  - destruct (list_max (map walk_depth cs)) as [|m] eqn:Em; [cbn; lia|].
    destruct (list_max_lt_inv (map walk_depth cs) m) as (x & Hx & Hlt); [lia|].
    apply in_map_iff in Hx as (c & <- & Hc).
    pose proof (json_depth_elem cs c Hc) as H1.
    pose proof (json_depth_lookup d "nodes" _ Hd) as H2.
    assert (Hct : tree c) by (rewrite Forall_forall in Hcs; apply Hcs, list_elem_of_In, Hc).
    pose proof (IH c ltac:(lia) Hct). lia.
Qed.

(** X1. On a tree, [_recurse_locations] returns a list when the recursion
    limit allows as many nested calls as the walk is deep, the same list
    under every such limit, and raises [RecursionError] when it allows
    fewer. The walk takes at most one call for every two levels of nesting
    of the document, so a limit of half the nesting depth is enough. *)
Theorem recurse_locations_terminates t limit :
  tree t ->
  (2 * walk_depth t <= S (json_depth t))%nat /\
  ((walk_depth t <= limit)%nat ->
   exists rs,
     _recurse_locations limit t = Return rs /\
     forall limit', (walk_depth t <= limit')%nat -> _recurse_locations limit' t = Return rs) /\
  ((limit < walk_depth t)%nat -> _recurse_locations limit t = Raise RecursionError).
Proof.
  intros Ht. split; [now apply walk_depth_json_depth|]. split.
  - intros Hle.
    destruct (_recurse_locations_tree (walk_depth t) t Ht (Nat.le_refl _)) as (rs & Hrs).
    assert (Hall : forall l, (walk_depth t <= l)%nat -> _recurse_locations l t = Return rs).
    { intros l Hl. rewrite <- Hrs.
      apply _recurse_locations_more; [rewrite Hrs; discriminate|exact Hl]. }
    exists rs. auto.
  - now apply _recurse_locations_overflow.
Qed.

Lemma recurse_locations_terminates_witness :
  (exists rs,
     _recurse_locations 3 sample_tree = Return rs /\
     forall limit', (walk_depth sample_tree <= limit')%nat ->
                    _recurse_locations limit' sample_tree = Return rs) /\
  _recurse_locations 2 sample_tree = Raise RecursionError /\
  _recurse_locations 1000 (chain 1500) = Raise RecursionError.
Proof.
  split; [|split].
  - apply (proj1 (proj2 (recurse_locations_terminates sample_tree 3 sample_tree_is_tree))).
    cbn. lia.
  - apply (proj2 (proj2 (recurse_locations_terminates sample_tree 2 sample_tree_is_tree))).
    cbn. lia.
  - apply (proj2 (proj2 (recurse_locations_terminates (chain 1500) 1000 (chain_is_tree 1500)))).
    rewrite walk_depth_chain. apply Nat.ltb_lt. vm_compute. reflexivity.
Defined.

(** ** Paths *)

Lemma below_location_spec t p :
  below_location t p = true <->
  exists q, q `prefix_of` p /\ q <> p /\ location_at t q.
Proof.
  revert t. induction p as [|i p IH]; intros t; cbn [below_location].
  - split; [discriminate|]. intros (q & Hq & Hne & _).
    apply prefix_nil_inv in Hq. congruence.
  - rewrite orb_true_iff. split.
    + intros [Hloc|Hbelow].
      * exists []. split; [apply prefix_nil|]. split; [discriminate|].
        exists t. auto.
      * destruct (children t !! i) as [c|] eqn:Ec; [|discriminate].
        apply IH in Hbelow as (q & Hq & Hne & n & Hn & Hloc).
        exists (i :: q). split; [now apply prefix_cons|].
        split; [congruence|]. exists n. cbn. now rewrite Ec.
    + intros ([|j q] & Hq & Hne & n & Hn & Hloc).
      * left. cbn in Hn. congruence.
      * right. destruct Hq as (rest & Hrest). injection Hrest as <- ->.
        cbn in Hn. destruct (children t !! i) as [c|]; [|discriminate].
        apply IH. exists q. split; [now exists rest|].
        split; [congruence|]. exists n. auto.
Qed.

Lemma topmost_location_at_iff t p :
  topmost_location_at t p <-> location_at t p /\ below_location t p = false.
Proof.
  unfold topmost_location_at. split; intros [Hloc H]; (split; [exact Hloc|]).
  - destruct (below_location t p) eqn:E; [|reflexivity].
    apply below_location_spec in E as (q & Hq & Hne & Hlq).
    now destruct (H q Hq Hne).
  - intros q Hq Hne Hlq.
    assert (below_location t p = true) by (apply below_location_spec; eauto).
    congruence.
Qed.

Lemma StronglySorted_app_intro {A} (R : A -> A -> Prop) (l1 l2 : list A) :
  StronglySorted R l1 -> StronglySorted R l2 ->
  (forall x y, In x l1 -> In y l2 -> R x y) ->
  StronglySorted R (l1 ++ l2)%list.
Proof.
  intros H1 H2 H. induction H1 as [|x l1 Hs IH Hx]; cbn; [exact H2|].
  constructor.
  - apply IH. intros a b Ha. apply H. now right.
  - apply List.Forall_app. split; [exact Hx|].
    apply List.Forall_forall. intros y Hy. apply H; [now left|exact Hy].
Qed.

Lemma StronglySorted_map_cons k (ps : list path) :
  StronglySorted path_lt ps -> StronglySorted path_lt (map (cons k) ps).
Proof.
  induction 1 as [|p ps Hs IH Hp]; cbn; constructor; [exact IH|].
  apply List.Forall_map. revert Hp. apply List.Forall_impl.
  intros q Hq. unfold path_lt in *. cbn [path_ltb].
  now rewrite Nat.ltb_irrefl, Nat.eqb_refl, Hq.
Qed.

Lemma in_number_paths (pss : list (list path)) k p :
  In p (number_paths k pss) <->
  exists j ps p', p = (k + j)%nat :: p' /\ pss !! j = Some ps /\ In p' ps.
Proof.
  revert k. induction pss as [|ps pss IH]; intros k; cbn [number_paths].
  - split; [intros []|]. intros (j & ps & p' & _ & H & _). discriminate.
  - rewrite in_app_iff, in_map_iff, IH. split.
    + intros [(p' & <- & Hp')|(j & psj & p' & -> & Hj & Hp')].
      * exists 0%nat, ps, p'. rewrite Nat.add_0_r. auto.
      * exists (S j), psj, p'. rewrite Nat.add_succ_r. auto.
    + intros ([|j] & psj & p' & -> & Hj & Hp'); cbn in Hj.
      * injection Hj as ->. left. exists p'. now rewrite Nat.add_0_r.
      * right. exists j, psj, p'. rewrite Nat.add_succ_r. auto.
Qed.

Lemma number_paths_sorted (pss : list (list path)) k :
  List.Forall (StronglySorted path_lt) pss -> StronglySorted path_lt (number_paths k pss).
Proof.
  intros H. revert k. induction H as [|ps pss Hps _ IH]; intros k; cbn [number_paths].
  - constructor.
  - apply StronglySorted_app_intro.
    + now apply StronglySorted_map_cons.
    + apply IH.
    + intros x y Hx Hy. apply in_map_iff in Hx as (p' & <- & _).
      apply in_number_paths in Hy as (j & _ & q' & -> & _).
      unfold path_lt. cbn [path_ltb].
      assert ((k <? S k + j)%nat = true) as -> by (apply Nat.ltb_lt; lia).
      reflexivity.
Qed.

Lemma number_paths_nodes t (cs : list json) (pss : list (list path)) (rss : list (list json)) k :
  Forall3 (listing) cs pss rss ->
  (forall j c, cs !! j = Some c -> children t !! (k + j)%nat = Some c) ->
  Forall2 (fun p r => node_at t p = Some r) (number_paths k pss) (concat rss).
Proof.
  intros H. revert k. induction H as [|c ps rs cs pss rss (Hnodes & _) _ IH]; intros k Hk.
  - constructor.
  - cbn [number_paths concat]. apply Forall2_app.
    + apply Forall2_fmap_l. eapply Forall2_impl; [exact Hnodes|].
      intros p r Hp. cbn. specialize (Hk 0%nat c eq_refl).
      rewrite Nat.add_0_r in Hk. now rewrite Hk.
    + apply IH. intros j c' Hc'. rewrite Nat.add_succ_l, <- Nat.add_succ_r.
      now apply Hk.
Qed.

(** ** What [_recurse_locations] reports *)

Lemma not_dict_raises n (t : json) :
  (forall d, t <> JDict d) -> forall rs, _recurse_locations n t <> Return rs.
Proof.
  intros Ht rs. destruct n as [|n]; [discriminate|].
  destruct t; try discriminate. now destruct (Ht d).
Qed.

(** When the loop ran to its end, it ran over the 'nodes' list. *)
Lemma loop_items_children n t items rss :
  loop_items t = Return items ->
  Forall2 (fun c r => _recurse_locations n c = Return r) items rss ->
  items = children t.
Proof.
  unfold loop_items. destruct t as [| | | | | |d]; try discriminate.
  cbn [py_get rbind children].
  destruct (json_lookup d "nodes") as [nodes|]; [|now intros [= <-]].
  destruct nodes as [| | | |s|l|d']; cbn [py_iter]; try discriminate; intros [= <-] H.
  - destruct s as [|a s]; [reflexivity|]. cbn in H. inversion H as [|? ? ? ? Hhead]; subst.
    now apply not_dict_raises in Hhead.
  - reflexivity.
  - destruct d' as [|[k v] d']; [reflexivity|]. cbn in H.
    inversion H as [|? ? ? ? Hhead]; subst.
    now apply not_dict_raises in Hhead.
Qed.

Lemma Forall2_listing (cs : list json) (rss : list (list json)) :
  Forall2 (fun c rs => exists ps, listing c ps rs) cs rss ->
  exists pss, Forall3 listing cs pss rss.
Proof.
  induction 1 as [|c rs cs rss (ps & Hps) _ (pss & IH)].
  - exists []. constructor.
  - exists (ps :: pss). now constructor.
Qed.

(** Whenever the recursion returns, it returns the locations that lie below
    no other location, in depth-first order. *)
Lemma _recurse_locations_listing n t rs :
  _recurse_locations n t = Return rs -> exists ps, listing t ps rs.
Proof.
  revert t rs. induction n as [|n IH]; intros t rs; [discriminate|].
  rewrite _recurse_locations_unfold.
  destruct t as [| | | | | |d]; try discriminate.
  destruct (py_get (JDict d) "node_type" JNull) as [v|] eqn:Eget; [|discriminate].
  cbn [rbind]. rewrite (is_location_get d v Eget).
  destruct (is_location (JDict d)) eqn:Eloc.
  - intros [= <-]. exists [[]]. split; [|split].
    + repeat constructor.
    + repeat constructor.
    + intros p. rewrite list_elem_of_singleton. split.
      * intros ->. split; [exists (JDict d); auto|reflexivity].
      * intros [_ Hbelow]. destruct p as [|i p]; [reflexivity|].
        cbn [below_location] in Hbelow. now rewrite Eloc in Hbelow.
  - destruct (loop_items (JDict d)) as [items|] eqn:Eitems; [|discriminate].
    cbn [rbind]. rewrite for_extend_Return. intros (rss & Hall & ->).
    rewrite (loop_items_children n _ _ _ Eitems Hall) in Hall. cbn [app].
    assert (Hlist : Forall2 (fun c rs => exists ps, listing c ps rs)
                      (children (JDict d)) rss).
    { eapply Forall2_impl; [exact Hall|]. intros c r. apply IH. }
    apply Forall2_listing in Hlist as (pss & H3).
    exists (number_paths 0 pss). split; [|split].
    + now apply (number_paths_nodes (JDict d) (children (JDict d))).
    + apply number_paths_sorted. apply List.Forall_forall. intros ps Hps.
      apply list_elem_of_In, list_elem_of_lookup in Hps as (j & Hj).
      destruct (Forall3_lookup_m _ _ _ _ _ _ H3 Hj) as (c & r & _ & _ & _ & Hs & _).
      exact Hs.
    + intros p. rewrite list_elem_of_In, in_number_paths. split.
      * intros (j & ps & p' & -> & Hj & Hp'). cbn [Nat.add].
        destruct (Forall3_lookup_m _ _ _ _ _ _ H3 Hj) as (c & r & Hc & _ & _ & _ & Hmem).
        apply list_elem_of_In in Hp'. apply Hmem in Hp'.
        destruct Hp' as ((n' & Hn' & Hl') & Hb').
        split.
        -- exists n'. cbn [node_at]. now rewrite Hc.
        -- cbn [below_location]. now rewrite Eloc, Hc.
      * intros ((n' & Hn' & Hl') & Hb'). destruct p as [|j p'].
        -- cbn in Hn'. injection Hn' as <-. congruence.
        -- cbn [node_at] in Hn'. cbn [below_location] in Hb'. rewrite Eloc in Hb'.
           destruct (children (JDict d) !! j) as [c|] eqn:Hc; [|discriminate].
           destruct (Forall3_lookup_l _ _ _ _ _ _ H3 Hc) as (ps & r & Hj & _ & _ & _ & Hmem).
           exists j, ps, p'. split; [reflexivity|]. split; [exact Hj|].
           apply list_elem_of_In, Hmem. split; [exists n'; auto|exact Hb'].
Qed.

(** X2. Whenever [_recurse_locations] returns, under whatever recursion
    limit, its result lists, in depth-first order and once each, exactly the
    location nodes that lie below no other location node; every element of
    the result is a location. *)
Theorem recurse_locations_lists_topmost limit t rs :
  _recurse_locations limit t = Return rs ->
  dfs_listing topmost_location_at t rs /\
  List.Forall (fun r => is_location r = true) rs.
Proof.
  intros H. apply _recurse_locations_listing in H as (ps & Hnodes & Hsorted & Hmem).
  split.
  - exists ps. split; [exact Hnodes|]. split; [exact Hsorted|].
    intros p. rewrite topmost_location_at_iff. apply Hmem.
  - apply List.Forall_forall. intros r Hr.
    apply list_elem_of_In, list_elem_of_lookup in Hr as (i & Hi).
    destruct (Forall2_lookup_r _ _ _ _ _ Hnodes Hi) as (p & Hp & Hat).
    assert (Hin : p ∈ ps) by (apply list_elem_of_lookup; eauto).
    apply Hmem in Hin as ((n & Hn & Hloc) & _). congruence.
Qed.

Lemma recurse_locations_lists_topmost_witness :
  dfs_listing topmost_location_at sample_tree
    [JDict [("node_type", JStr "location"); ("id", JInt 1)];
     JDict [("node_type", JStr "location"); ("id", JInt 2)]] /\
  dfs_listing topmost_location_at nested_location [nested_location].
Proof.
  split.
  - exact (proj1 (recurse_locations_lists_topmost 3 sample_tree _ eq_refl)).
  - exact (proj1 (recurse_locations_lists_topmost 1 nested_location _ eq_refl)).
Defined.

Lemma _recurse_locations_raises n t e :
  _recurse_locations n t = Raise e ->
  e = AttributeError \/ e = TypeError \/ e = RecursionError.
Proof.
  revert t. induction n as [|n IH]; intros t; [intros [= <-]; auto|].
  rewrite _recurse_locations_unfold.
  destruct t as [| | | | | |d]; cbn [py_get rbind]; try (intros [= <-]; now left).
  destruct (py_eq_str _ "location"); [discriminate|].
  destruct (loop_items (JDict d)) as [items|e'] eqn:E; cbn [rbind].
  - intros H. apply for_extend_Raise in H as (c & Hc & Hraise). now apply (IH c).
  - intros [= ->]. unfold loop_items in E. cbn in E.
    destruct (json_lookup d "nodes") as [[]|]; cbn in E; try discriminate;
      injection E as <-; auto.
Qed.

(** X3. When [_recurse_locations] raises, the exception is
    [AttributeError] (a node that is not a dict), [TypeError] (a 'nodes'
    value that cannot be iterated) or [RecursionError] (the walk is deeper
    than the recursion limit allows), and nothing else. On a tree it can
    only be [RecursionError]; an error other than [RecursionError] comes
    back under every higher limit; and an argument that is not a dict gives
    [AttributeError] as soon as one call is allowed. *)
Theorem recurse_locations_raises_only limit t e :
  _recurse_locations limit t = Raise e ->
  (e = AttributeError \/ e = TypeError \/ e = RecursionError) /\
  (tree t -> e = RecursionError /\ (limit < walk_depth t)%nat) /\
  (e <> RecursionError ->
   forall limit', (limit <= limit')%nat -> _recurse_locations limit' t = Raise e) /\
  ((forall d, t <> JDict d) -> (0 < limit)%nat -> e = AttributeError).
Proof.
  intros H. split; [now apply (_recurse_locations_raises limit t)|]. split; [|split].
  - intros Ht. destruct (Nat.le_gt_cases (walk_depth t) limit) as [Hle|Hgt].
    + destruct (_recurse_locations_tree limit t Ht Hle) as (rs & Hrs). congruence.
    + split; [|exact Hgt].
      rewrite (_recurse_locations_overflow limit t Ht Hgt) in H. congruence.
  - intros Hne limit' Hle. rewrite <- H.
    apply _recurse_locations_more; [rewrite H; congruence|exact Hle].
  - intros Hd Hpos. destruct limit as [|limit]; [lia|].
    destruct t; cbn in H; try congruence. now destruct (Hd d).
Qed.

Lemma recurse_locations_raises_only_witness :
  _recurse_locations 5 malformed_tree = Raise TypeError /\
  _recurse_locations 900 malformed_tree = Raise TypeError /\
  _recurse_locations 1 malformed_tree = Raise RecursionError /\
  (2 < walk_depth (chain 3))%nat.
Proof.
  split; [reflexivity|]. split; [|split; [reflexivity|]].
  - apply (proj1 (proj2 (proj2 (recurse_locations_raises_only 5 malformed_tree TypeError
                                  eq_refl)))); [discriminate|lia].
  - exact (proj2 (proj1 (proj2 (recurse_locations_raises_only 2 (chain 3) RecursionError
                                  eq_refl)) (chain_is_tree 3))).
Defined.

(** The claim C3 as it is worded fails on a location that has a location
    among its 'nodes': the inner one is a location node of the tree, and it
    is not returned. *)
Lemma recurse_locations_misses_nested_location :
  tree nested_location /\
  (walk_depth nested_location <= 1)%nat /\
  location_at nested_location [0%nat] /\
  _recurse_locations 1 nested_location = Return [nested_location] /\
  forall limit rs,
    _recurse_locations limit nested_location = Return rs ->
    ~ dfs_listing location_at nested_location rs.
Proof.
  split; [prove_tree|]. split; [cbn; lia|].
  split; [eexists; split; reflexivity|]. split; [reflexivity|].
  intros [|limit] rs Hrs (ps & Hnodes & _ & Hmem); [discriminate|].
  injection Hrs as <-.
  assert (H0 : [] ∈ ps) by (apply Hmem; eexists; split; reflexivity).
  assert (H1 : [0%nat] ∈ ps) by (apply Hmem; eexists; split; reflexivity).
  apply Forall2_length in Hnodes. cbn in Hnodes.
  destruct ps as [|p [|p' ps]]; try discriminate.
  apply list_elem_of_singleton in H0, H1. congruence.
Qed.

(** C3, amended. On a tree whose walk the recursion limit covers,
    [_recurse_locations] returns the list of exactly those nodes with
    'node_type' 'location' that lie below no other such node, in depth-first
    order over the 'nodes' children; a dict with neither 'node_type' nor
    'nodes' gives the empty list. *)
Theorem recurse_locations_topmost_on_trees t limit :
  tree t ->
  (walk_depth t <= limit)%nat ->
  (exists rs, _recurse_locations limit t = Return rs /\
              dfs_listing topmost_location_at t rs) /\
  (forall d, t = JDict d -> json_lookup d "node_type" = None ->
             json_lookup d "nodes" = None -> _recurse_locations limit t = Return []).
Proof.
  intros Ht Hle. split.
  - destruct (_recurse_locations_tree limit t Ht Hle) as (rs & Hrs).
    exists rs. split; [exact Hrs|].
    apply _recurse_locations_listing in Hrs as (ps & Hnodes & Hsorted & Hmem).
    exists ps. split; [exact Hnodes|]. split; [exact Hsorted|].
    intros p. rewrite topmost_location_at_iff. apply Hmem.
  - intros d -> Htype Hnodes. destruct limit as [|limit].
    { pose proof (walk_depth_pos (JDict d)). lia. }
    cbn. now rewrite Htype, Hnodes.
Qed.

Lemma recurse_locations_topmost_on_trees_witness :
  (exists rs, _recurse_locations 3 sample_tree = Return rs /\
              dfs_listing topmost_location_at sample_tree rs) /\
  _recurse_locations 1 (JDict []) = Return [].
Proof.
  split.
  - apply (proj1 (recurse_locations_topmost_on_trees sample_tree 3 sample_tree_is_tree
                    ltac:(cbn; lia))).
  - apply (proj2 (recurse_locations_topmost_on_trees (JDict []) 1 (chain_is_tree 0)
                    ltac:(cbn; lia)) [] eq_refl eq_refl eq_refl).
Defined.

(** A call either loops over the items that [recursive_call] relates to its
    argument, or makes no recursive call at all. *)
Lemma recursive_calls_of limit parent :
  (exists items,
     (forall child, child ∈ items <-> recursive_call child parent) /\
     _recurse_locations (S limit) parent
     = for_extend (_recurse_locations limit) items []) \/
  ((forall child, ~ recursive_call child parent) /\
   _recurse_locations (S limit) parent = _recurse_locations 1 parent).
Proof.
  rewrite !_recurse_locations_unfold.
  destruct (py_get parent "node_type" JNull) as [node_type|e] eqn:Etype; cbn [rbind].
  - destruct (py_eq_str node_type "location") eqn:Eloc.
    + right. split; [|reflexivity].
      intros child (nt & _ & _ & Hnt & Hne & _). congruence.
    + unfold loop_items.
      destruct (py_get parent "nodes" (JList [])) as [nodes|e] eqn:Enodes; cbn [rbind].
      * destruct (py_iter nodes) as [items|e] eqn:Eiter.
        -- left. exists items. split; [|reflexivity].
           intros child. split.
           ++ intros Hin. exists node_type, nodes, items. auto.
           ++ intros (nt & ns & its & _ & _ & Hns & Hits & Hin). congruence.
        -- right. split; [|reflexivity].
           intros child (nt & ns & its & _ & _ & Hns & Hits & _). congruence.
      * right. split; [|reflexivity].
        intros child (nt & ns & its & _ & _ & Hns & _). congruence.
  - right. split; [|reflexivity].
    intros child (nt & _ & _ & Hnt & _). congruence.
Qed.

(** C7. [_recurse_locations] terminates on every tree, and its recursion
    is well-founded: each recursive call is made on an item of the 'nodes'
    of its argument, which lies strictly less deep in the document, and a
    call makes no other recursive call than those. On a tree the walk has a
    finite depth: under every recursion limit that covers it the call returns
    a list, the same one whatever the limit, and under a lower limit it ends
    with [RecursionError]. *)
Theorem recurse_locations_well_founded :
  well_founded recursive_call /\
  (forall child parent, recursive_call child parent ->
     (json_depth child < json_depth parent)%nat) /\
  (forall limit parent,
     (exists items,
        (forall child, child ∈ items <-> recursive_call child parent) /\
        _recurse_locations (S limit) parent
        = for_extend (_recurse_locations limit) items []) \/
     ((forall child, ~ recursive_call child parent) /\
      _recurse_locations (S limit) parent = _recurse_locations 1 parent)) /\
  (forall t, tree t ->
     exists rs,
       forall limit,
         ((walk_depth t <= limit)%nat -> _recurse_locations limit t = Return rs) /\
         ((limit < walk_depth t)%nat -> _recurse_locations limit t = Raise RecursionError)).
Proof.
  split; [|split; [|split]].
  - apply (well_founded_lt_compat json json_depth). apply recursive_call_depth.
  - apply recursive_call_depth.
  - apply recursive_calls_of.
  - intros t Ht.
    destruct (_recurse_locations_tree (walk_depth t) t Ht (Nat.le_refl _)) as (rs & Hrs).
    exists rs. intros limit. split.
    + intros Hle. rewrite <- Hrs.
      apply _recurse_locations_more; [rewrite Hrs; discriminate|exact Hle].
    + now apply _recurse_locations_overflow.
Qed.

Lemma recurse_locations_well_founded_witness :
  exists rs,
    forall limit,
      ((walk_depth sample_tree <= limit)%nat ->
       _recurse_locations limit sample_tree = Return rs) /\
      ((limit < walk_depth sample_tree)%nat ->
       _recurse_locations limit sample_tree = Raise RecursionError).
Proof.
  exact (proj2 (proj2 (proj2 recurse_locations_well_founded)) sample_tree sample_tree_is_tree).
Defined.

(** ** More on [managed_locations] *)

Lemma managed_locations_run self business_id cookie w :
  managed_locations self business_id cookie w =
    (match network w (sent w) (hierarchy_request business_id cookie) with
     | Answer response =>
         rbind (Response_json response) (fun body =>
         rbind (py_get body "root_tier" (JDict []))
               (_recurse_locations (S (frames_left w))))
     | Failure => Raise RequestException
     end,
     {| heap := heap w; stdout := stdout w;
        sent := (sent w ++ [hierarchy_request business_id cookie])%list;
        network := network w;
        frames_left := frames_left w |}).
Proof.
  unfold managed_locations, bind, requests_get, lift, call_recursive, hierarchy_request, GET.
  destruct (network w (sent w) _) as [response|]; [|reflexivity].
  destruct (Response_json response) as [body|]; cbn [rbind]; [|reflexivity].
  destruct (py_get body "root_tier" (JDict [])); reflexivity.
Qed.



(** X5. Whatever the reply, [managed_locations] sends exactly one request,
    prints nothing and leaves every dict of the heap as it was. A network
    failure surfaces as the exception of [requests.get], a body that is not
    JSON as [JSONDecodeError], and a JSON body that is not an object as
    [AttributeError]. *)
Theorem managed_locations_effects self business_id cookie w :
  let out := managed_locations self business_id cookie w in
  let req := hierarchy_request business_id cookie in
  (sent (snd out) = (sent w ++ [req])%list /\
   heap (snd out) = heap w /\
   stdout (snd out) = stdout w /\
   network (snd out) = network w) /\
  (network w (sent w) req = Failure -> fst out = Raise RequestException) /\
  (forall response, network w (sent w) req = Answer response ->
     (json_body response = None -> fst out = Raise JSONDecodeError) /\
     (forall j, json_body response = Some j -> (forall d, j <> JDict d) ->
        fst out = Raise AttributeError)).
Proof.
  intros out req. subst out req. rewrite managed_locations_run. cbn [fst snd sent heap stdout network].
  split; [auto|]. split.
  - now intros ->.
  - intros response ->. unfold Response_json. split.
    + now intros ->.
    + intros j -> Hj. cbn [rbind]. destruct j; try reflexivity. now destruct (Hj d).
Qed.

Lemma managed_locations_effects_witness :
  fst (managed_locations api0 "42" "c=1" failing_world) = Raise RequestException /\
  fst (managed_locations api0 "42" "c=1" (constant_world response_not_found))
  = Raise JSONDecodeError /\
  fst (managed_locations api0 "42" "c=1" (constant_world response_json_list))
  = Raise AttributeError /\
  sent (snd (managed_locations api0 "42" "c=1" failing_world))
  = [hierarchy_request "42" "c=1"].
Proof.
  pose proof (managed_locations_effects api0 "42" "c=1" failing_world) as (Hfx & Hfail & _).
  pose proof (managed_locations_effects api0 "42" "c=1" (constant_world response_not_found))
    as (_ & _ & Hnf).
  pose proof (managed_locations_effects api0 "42" "c=1" (constant_world response_json_list))
    as (_ & _ & Hlist).
  split; [exact (Hfail eq_refl)|].
  split; [exact (proj1 (Hnf _ eq_refl) eq_refl)|].
  split; [|exact (proj1 Hfx)].
  apply (proj2 (Hlist _ eq_refl) (JList []) eq_refl). discriminate.
Defined.

(** C10. A node whose 'node_type' is 'location' is returned alone, under
    any limit that allows the call itself and whatever its 'nodes' field
    holds: the field is not looked at. So the result of [_recurse_locations],
    and with it the result of [managed_locations] on the 'root_tier' of the
    response, lists the locations that lie below no other location, and no
    location nested beneath another location is among the nodes listed.
    (Nodes are taken by their place in the document: two equal dicts at
    different places are different nodes.) *)
Theorem location_hides_nested_locations :
  (forall limit t, is_location t = true -> _recurse_locations (S limit) t = Return [t]) /\
  (forall limit t rs,
     _recurse_locations limit t = Return rs ->
     exists ps, listing t ps rs /\
       forall p, location_at t p -> below_location t p = true -> p ∉ ps) /\
  (forall self business_id cookie w rs,
     fst (managed_locations self business_id cookie w) = Return rs ->
     exists response body,
       network w (sent w) (hierarchy_request business_id cookie) = Answer response /\
       json_body response = Some (JDict body) /\
       let root_tier := match json_lookup body "root_tier" with
                        | Some root_tier => root_tier
                        | None => JDict []
                        end in
       exists ps, listing root_tier ps rs /\
         forall p, location_at root_tier p -> below_location root_tier p = true -> p ∉ ps).
Proof.
  assert (Hlist : forall limit t rs,
             _recurse_locations limit t = Return rs ->
             exists ps, listing t ps rs /\
               forall p, location_at t p -> below_location t p = true -> p ∉ ps).
  { intros limit t rs H. apply _recurse_locations_listing in H as (ps & Hps).
    exists ps. split; [exact Hps|].
    intros p _ Hbelow Hin. apply Hps in Hin as (_ & Hnot). congruence. }
  split; [|split; [exact Hlist|]].
  - intros limit t Hloc. destruct t as [| | | | | |d]; try discriminate.
    cbn in Hloc. cbn. destruct (json_lookup d "node_type"); [|discriminate].
    now rewrite Hloc.
  - intros self business_id cookie w rs. rewrite managed_locations_run. cbn [fst].
    destruct (network w (sent w) _) as [response|]; [|discriminate].
    unfold Response_json. destruct (json_body response) as [j|] eqn:Hj; [|discriminate].
    cbn [rbind]. destruct j as [| | | | | |body]; try discriminate.
    cbn [py_get rbind]. intros H. exists response, body.
    split; [reflexivity|]. split; [exact Hj|]. cbn zeta.
    destruct (json_lookup body "root_tier"); now apply (Hlist _ _ _ H).
Qed.

Lemma location_hides_nested_locations_witness :
  _recurse_locations 1 nested_location = Return [nested_location] /\
  _recurse_locations 1 (JDict [("node_type", JStr "location"); ("nodes", JInt 3)])
  = Return [JDict [("node_type", JStr "location"); ("nodes", JInt 3)]].
Proof.
  split; apply (proj1 location_hides_nested_locations); reflexivity.
Defined.



(** ** The footprint of [_generate_url] *)

Lemma dict_get_setitem_ne (d : pydict) k k' v :
  k <> k' -> dict_get (dict_setitem d k v) k' = dict_get d k'.
Proof.
  intros Hne. induction d as [|[k0 v0] d IH]; cbn.
  - destruct (String.eqb k k') eqn:E; [|reflexivity].
    apply String.eqb_eq in E. contradiction.
  - destruct (String.eqb k0 k) eqn:E; cbn.
    + apply String.eqb_eq in E. subst k0.
      destruct (String.eqb k k') eqn:E'; [|reflexivity].
      apply String.eqb_eq in E'. contradiction.
    + now rewrite IH.
Qed.

(** X6. [_generate_url] changes nothing but the dict it was given and the
    standard output: every other dict of the heap stays as it was, no request
    is sent, one line ('generated url: ' and the URL) is printed; in the dict
    itself every key other than 'signature' keeps its value. *)
Theorem generate_url_frame self path params d w :
  heap w !! params = Some d ->
  let out := _generate_url self path params w in
  exists url d',
    fst out = Return url /\
    heap (snd out) !! params = Some d' /\
    (forall q, q <> params -> heap (snd out) !! q = heap w !! q) /\
    length (heap (snd out)) = length (heap w) /\
    (forall k, k <> "signature" -> dict_get d' k = dict_get d k) /\
    stdout (snd out) = (stdout w ++ [("generated url: " ++ url)%string])%list /\
    sent (snd out) = sent w /\
    network (snd out) = network w.
Proof.
  intros Hd out. subst out. rewrite (_generate_url_run _ _ _ _ _ Hd).
  cbn [fst snd after_generate_url heap stdout sent network].
  do 2 eexists. split; [reflexivity|]. split.
  { apply list_lookup_insert_eq. eapply lookup_lt_Some; eauto. }
  split.
  { intros q Hq. apply list_lookup_insert_ne. congruence. }
  split; [apply length_insert|].
  split.
  { intros k Hk. apply dict_get_setitem_ne. congruence. }
  auto.
Qed.

Lemma generate_url_frame_witness :
  let w := {| heap := [[("other", VInt 7)]; params0]; stdout := []; sent := [];
              network := fun _ _ => Failure; frames_left := 900 |} in
  let out := _generate_url api0 "/locations/123/all/" 1 w in
  heap (snd out) !! 0%nat = Some [("other", VInt 7)] /\
  sent (snd out) = [] /\
  exists d', heap (snd out) !! 1%nat = Some d' /\
             dict_get d' "client" = Some (VStr "my client").
Proof.
  intros w out.
  destruct (generate_url_frame api0 "/locations/123/all/" 1 params0 w eq_refl)
    as (url & d' & _ & Hd' & Hother & _ & Hkeys & _ & Hsent & _).
  split; [exact (Hother 0%nat ltac:(discriminate))|].
  split; [exact Hsent|].
  exists d'. split; [exact Hd'|].
  rewrite Hkeys; [reflexivity|discriminate].
Defined.

(** ** The request of each operation *)

Lemma fetch_effects self path p d w :
  heap w !! p = Some d ->
  let url := fst (after_generate_url self path p d w) in
  let w' := snd (fetch self path p w) in
  heap w' = heap (snd (after_generate_url self path p d w)) /\
  stdout w' = (stdout w ++ [("generated url: " ++ url)%string])%list /\
  sent w' = (sent w ++ [GET url []])%list /\
  network w' = network w.
Proof.
  intros Hd. unfold fetch, bind. rewrite (_generate_url_run _ _ _ _ _ Hd).
  unfold requests_get. cbn [fst snd after_generate_url heap stdout sent network].
  destruct (network w (sent w) _) as [response|]; [|cbn; auto].
  destruct (status_code response =? 200)%Z; cbn; auto.
Qed.

Lemma prepares_to_ret p : prepares_to p (ret tt) (fun d => d).
Proof.
  intros w d H. exists w. split; [reflexivity|].
  split; [symmetry; now apply list_insert_id|auto].
Qed.

Lemma prepares_to_setitem p k v : prepares_to p (setitem p k v) (fun d => dict_setitem d k v).
Proof.
  intros w d H. eexists. split; [apply (setitem_run _ _ _ _ _ H)|]. cbn. auto.
Qed.

Lemma prepares_to_if p (b : bool) k v :
  prepares_to p (if b then setitem p k v else ret tt)
    (fun d => if b then dict_setitem d k v else d).
Proof. destruct b; [apply prepares_to_setitem|apply prepares_to_ret]. Qed.

Lemma prepares_to_seq p (m1 m2 : M unit) f1 f2 :
  prepares_to p m1 f1 -> prepares_to p m2 f2 ->
  prepares_to p (m1 ;; m2) (fun d => f2 (f1 d)).
Proof.
  intros H1 H2 w d Hd.
  destruct (H1 w d Hd) as (w1 & Hrun1 & Hh1 & Ho1 & Hs1 & Hn1).
  assert (Hd1 : heap w1 !! p = Some (f1 d)).
  { rewrite Hh1. apply list_lookup_insert_eq. eapply lookup_lt_Some; eauto. }
  destruct (H2 w1 (f1 d) Hd1) as (w2 & Hrun2 & Hh2 & Ho2 & Hs2 & Hn2).
  exists w2. unfold bind. rewrite Hrun1, Hrun2. split; [reflexivity|].
  split; [now rewrite Hh2, Hh1, list_insert_insert_eq|].
  split; [congruence|]. split; congruence.
Qed.

(** What a call leaves behind when it has created the dict [d0], prepared
    it by [m] and fetched. *)
Lemma prepared_fetch_effects self path (m : M unit) f d0 w :
  prepares_to (length (heap w)) m f ->
  let p := length (heap w) in
  let w1 := {| heap := (heap w ++ [d0])%list; stdout := stdout w;
               sent := sent w; network := network w;
               frames_left := frames_left w |} in
  let url := url_with_signature VBytes self path (f d0) in
  let w' := snd ((m ;; fetch self path p) w1) in
  heap w' = (heap w ++ [dict_setitem (f d0) "signature"
                          (VBytes (_generate_signature self (path ++ "?" ++ urlencode (f d0))))])%list /\
  stdout w' = (stdout w ++ [("generated url: " ++ url)%string])%list /\
  sent w' = (sent w ++ [GET url []])%list /\
  network w' = network w.
Proof.
  intros Hm p w1 url w'.
  assert (Hat : heap w1 !! p = Some d0) by (apply list_lookup_middle; reflexivity).
  destruct (Hm w1 d0 Hat) as (w2 & Hrun & Hh & Ho & Hs & Hn).
  assert (Hd2 : heap w2 !! p = Some (f d0)).
  { rewrite Hh. apply list_lookup_insert_eq. eapply lookup_lt_Some; eauto. }
  pose proof (fetch_effects self path p (f d0) w2 Hd2) as Hfx. cbv zeta in Hfx.
  destruct Hfx as (Hh' & Ho' & Hs' & Hn').
  assert (Hsnd : snd ((m ;; fetch self path p) w1) = snd (fetch self path p w2))
    by (unfold bind at 1; now rewrite Hrun).
  subst w'. rewrite Hsnd, Hh', Ho', Hs', Hn'.
  cbn [fst snd after_generate_url heap stdout sent network].
  rewrite Hh, Ho, Hs, Hn. subst url p w1. cbn [heap stdout sent network].
  split; [|auto].
  rewrite list_insert_insert_eq.
  rewrite <- (Nat.add_0_r (length (heap w))) at 1.
  now rewrite insert_app_r.
Qed.

(** X7. What [summary], [menu] and [photos] do besides returning: each
    creates one new dict (no existing dict is touched), prints the URL and
    sends one GET request to that same URL, whatever the reply. The URL is
    the host, the path of the operation with the location id as given, and
    the urlencoding of 'client', of the optional parameters that were asked
    for ('format=short'; 'height' and 'width' when not zero; 'type') and of
    the signature. *)
Theorem api_call_request self call w :
  let d := call_params self call in
  let signature := _generate_signature self (call_path call ++ "?" ++ urlencode d) in
  let url := _HOST ++ call_path call ++ "?"
             ++ urlencode (d ++ [("signature", VBytes signature)])%list in
  let out := perform self call w in
  heap (snd out) = (heap w ++ [(d ++ [("signature", VBytes signature)])%list])%list /\
  stdout (snd out) = (stdout w ++ [("generated url: " ++ url)%string])%list /\
  sent (snd out) = (sent w ++ [GET url []])%list /\
  network (snd out) = network w.
Proof.
  intros d signature url out.
  assert (Hfresh : dict_setitem d "signature" (VBytes signature)
                   = (d ++ [("signature", VBytes signature)])%list).
  { apply dict_setitem_fresh. subst d.
    destruct call as [? ?|? []|? [h|] [w0|] [t|]]; cbn;
      repeat match goal with |- context [(?n =? 0)%Z] => destruct (n =? 0)%Z end;
      reflexivity. }
  subst url. rewrite <- Hfresh. subst out signature d.
  set (d0 := [("client", VStr (_client_id self))] : pydict).
  set (p := length (heap w)).
  set (w1 := {| heap := (heap w ++ [d0])%list; stdout := stdout w;
                sent := sent w; network := network w;
                frames_left := frames_left w |}).
  assert (Hnew : forall k : loc -> M json, (params <- new_dict d0 ;; k params) w = k p w1)
    by reflexivity.
  destruct call as [location_id complete|location_id short
                   |location_id max_height max_width image_type];
    cbn [perform call_path].
  - unfold summary. fold d0. rewrite Hnew.
    pose proof (prepared_fetch_effects self
                  ("/locations/" ++ location_id ++ "/"
                     ++ (if complete then "all/" else EmptyString))
                  (ret tt) (fun d => d) d0 w (prepares_to_ret _)) as H.
    exact H.
  - unfold menu. fold d0. rewrite Hnew.
    pose proof (prepared_fetch_effects self ("/locations/" ++ location_id ++ "/menus/")
                  _ _ d0 w (prepares_to_if (length (heap w)) short "format" (VStr "short")))
      as H.
    destruct short; exact H.
  - unfold photos. fold d0. rewrite Hnew.
    pose proof (prepared_fetch_effects self ("/locations/" ++ location_id ++ "/photos/")
                  _ _ d0 w
                  (prepares_to_seq _ _ _ _ _
                     (prepares_to_if (length (heap w)) (truthy max_height) "height"
                        (VInt (default 0%Z max_height)))
                     (prepares_to_seq _ _ _ _ _
                        (prepares_to_if (length (heap w)) (truthy max_width) "width"
                           (VInt (default 0%Z max_width)))
                        (match image_type as o return
                               prepares_to (length (heap w))
                                 (match o with
                                  | Some t => setitem (length (heap w)) "type" (VStr (value t))
                                  | None => ret tt
                                  end)
                                 (fun d => match o with
                                           | Some t => dict_setitem d "type" (VStr (value t))
                                           | None => d
                                           end)
                         with
                         | Some t => prepares_to_setitem _ _ _
                         | None => prepares_to_ret _
                         end)))) as H.
    cbv zeta in H. fold p w1 in H.
    assert (Hassoc :
      snd (((if truthy max_height
             then setitem p "height" (VInt (default 0%Z max_height)) else ret tt) ;;
            (if truthy max_width
             then setitem p "width" (VInt (default 0%Z max_width)) else ret tt) ;;
            (match image_type with
             | Some t => setitem p "type" (VStr (value t))
             | None => ret tt
             end) ;;
            fetch self ("/locations/" ++ location_id ++ "/photos/") p) w1)
      = snd ((((if truthy max_height
                then setitem p "height" (VInt (default 0%Z max_height)) else ret tt) ;;
               (if truthy max_width
                then setitem p "width" (VInt (default 0%Z max_width)) else ret tt) ;;
               match image_type with
               | Some t => setitem p "type" (VStr (value t))
               | None => ret tt
               end) ;;
              fetch self ("/locations/" ++ location_id ++ "/photos/") p) w1)).
    { f_equal. symmetry. rewrite bind_assoc. apply bind_ext. intros _ w2.
      apply bind_assoc. }
    unfold fetch in Hassoc at 1. rewrite Hassoc. clear Hassoc.
    unfold call_params, size_param.
    destruct max_height as [h|], max_width as [w0|], image_type as [t|];
      cbn [truthy] in H |- *;
      repeat match goal with |- context [(?n =? 0)%Z] => destruct (n =? 0)%Z end;
      exact H.
Qed.

Lemma api_call_request_witness :
  sent (snd (perform api0 (Photos "123" (Some 0%Z) (Some 64%Z) (Some LOGO))
               (constant_world response_ok)))
  = [GET ("https://publishing-api.singleplatform.com/locations/123/photos/"
          ++ "?client=my+client&width=64&type=logo&signature=SMiSGEa%2Fp5pZhL8rk9PuweMdvns%3D")
       []].
Proof.
  destruct (api_call_request api0 (Photos "123" (Some 0%Z) (Some 64%Z) (Some LOGO))
              (constant_world response_ok)) as (_ & _ & Hsent & _).
  rewrite Hsent. vm_compute. reflexivity.
Defined.

(** ** The URL as a signed message *)

Lemma concat_snoc (sep : string) (xs : list string) (y : string) :
  xs <> [] -> String.concat sep (xs ++ [y])%list = String.concat sep xs ++ sep ++ y.
Proof.
  induction xs as [|x xs IH]; [congruence|]. intros _.
  destruct xs as [|x' xs]; [reflexivity|].
  change (String.concat sep ((x :: x' :: xs) ++ [y])%list)
    with (x ++ sep ++ String.concat sep ((x' :: xs) ++ [y])%list).
  rewrite IH by discriminate.
  change (String.concat sep (x :: x' :: xs))
    with (x ++ sep ++ String.concat sep (x' :: xs)).
  now rewrite !append_assoc.
Qed.

Lemma urlencode_snoc (d : pydict) kv :
  d <> [] -> urlencode (d ++ [kv])%list = urlencode d ++ "&" ++ urlencode_item kv.
Proof.
  intros Hd. unfold urlencode. rewrite map_app. apply concat_snoc.
  destruct d; [congruence|discriminate].
Qed.

(** X8. When the params are not empty and hold no 'signature' yet (as in
    every call this class makes), the URL of [_generate_url] is the host,
    then exactly the message that was signed, then '&signature=' and the
    quoted signature, from which [unquote_plus] gives the signature back. *)
Theorem generate_url_appends_signature self path params d w :
  heap w !! params = Some d ->
  d <> [] ->
  dict_get d "signature" = None ->
  let message := path ++ "?" ++ urlencode d in
  let signature := _generate_signature self message in
  exists quoted,
    fst (_generate_url self path params w)
    = Return (_HOST ++ message ++ "&signature=" ++ quoted) /\
    quoted = urllib_parse.quote_plus (Bytes signature) [] /\
    unquote_plus quoted = signature.
Proof.
  intros Hd Hne Hfresh message signature.
  exists (urllib_parse.quote_plus (Bytes signature) []).
  split; [|split; [reflexivity|apply unquote_plus_quote_plus]].
  rewrite (_generate_url_run _ _ _ _ _ Hd). cbn [fst after_generate_url].
  fold message. fold signature.
  rewrite (dict_setitem_fresh _ _ _ Hfresh), (urlencode_snoc _ _ Hne).
  unfold urlencode_item. cbn [fst snd]. f_equal.
  subst message. now rewrite !append_assoc.
Qed.

Lemma generate_url_appends_signature_witness :
  fst (_generate_url api0 "/locations/123/all/" 0 world0)
  = Return ("https://publishing-api.singleplatform.com"
            ++ "/locations/123/all/?client=my+client"
            ++ "&signature=" ++ "Px%2BRprvfKY%2BfKV7pEh2A%2F6Xq1mo%3D") /\
  unquote_plus "Px%2BRprvfKY%2BfKV7pEh2A%2F6Xq1mo%3D" = encode "Px+RprvfKY+fKV7pEh2A/6Xq1mo=".
Proof.
  destruct (generate_url_appends_signature api0 "/locations/123/all/" 0 params0 world0
              eq_refl ltac:(discriminate) eq_refl) as (quoted & Hurl & Hq & _).
  split; [|reflexivity].
  rewrite Hurl, Hq. vm_compute. reflexivity.
Defined.

(** ** The shape of a signature *)

Lemma sextet_in_alphabet n : In (base64.sextet n) base64.alphabet.
Proof.
  unfold base64.sextet. apply nth_In.
  change (length base64.alphabet) with 64%nat.
  pose proof (Z.mod_pos_bound n 64 ltac:(lia)). lia.
Qed.

(** X9. A signature is always 28 bytes long: 27 characters of the base64
    alphabet and one '=' of padding at the end. *)
Theorem generate_signature_shape self uri :
  exists body,
    _generate_signature self uri = (body ++ ["="%byte])%list /\
    length body = 27%nat /\
    List.Forall (fun c => In c base64.alphabet) body.
Proof.
  unfold _generate_signature. rewrite hmac_digest_rfc2104.
  unfold HMAC_SHA1_rfc2104.
  match goal with |- context [base64.b64encode (hashlib.sha1_digest ?m)] =>
    pose proof (sha1_digest_length m) as Hlen;
    generalize dependent (hashlib.sha1_digest m)
  end.
  intros digest Hlen.
  do 20 (destruct digest as [|? digest]; [discriminate|]).
  destruct digest; [|discriminate].
  cbn [base64.b64encode].
  eexists (_ :: _ :: _ :: _ :: _ :: _ :: _ :: _ :: _ :: _ :: _ :: _ :: _ :: _ :: _ :: _ ::
           _ :: _ :: _ :: _ :: _ :: _ :: _ :: _ :: _ :: _ :: [_]).
  split; [reflexivity|]. split; [reflexivity|].
  repeat (apply List.Forall_cons; [apply sextet_in_alphabet|]).
  apply List.Forall_nil.
Qed.

(** ** Secrets that sign alike *)

Lemma encode_append (a b : string) : encode (a ++ b) = (encode a ++ encode b)%list.
Proof.
  unfold encode, list_byte_of_string. induction a as [|x a IH]; [reflexivity|].
  cbn. now rewrite <- IH.
Qed.

Lemma encode_length (s : string) : length (encode s) = String.length s.
Proof.
  unfold encode, list_byte_of_string. induction s as [|x s IH]; [reflexivity|].
  cbn. now rewrite <- IH.
Qed.

Lemma ljust_nul (key : bytes) :
  (length key < 64)%nat -> hmac.ljust (key ++ [x00])%list 64 = hmac.ljust key 64.
Proof.
  intros H. unfold hmac.ljust. rewrite length_app. cbn [length].
  replace (64 - length key)%nat with (S (64 - (length key + 1)))%nat by lia.
  cbn [repeat]. now rewrite <- app_assoc.
Qed.

(** X10. The key of the HMAC is the secret padded with NUL bytes to 64
    bytes, so a secret shorter than 64 bytes and the same secret followed by
    a NUL character give the same signatures. *)
Theorem generate_signature_nul_padded_secret self1 self2 uri :
  (String.length (_client_secret self1) < 64)%nat ->
  _client_secret self2 = _client_secret self1 ++ String Ascii.zero EmptyString ->
  _generate_signature self2 uri = _generate_signature self1 uri.
Proof.
  intros Hlen Hs. unfold _generate_signature. rewrite Hs, encode_append.
  change (encode (String Ascii.zero EmptyString)) with [x00].
  rewrite <- encode_length in Hlen.
  f_equal. unfold hmac.digest, hmac._current, hmac.new, hashlib.block_size.
  rewrite length_app. cbn [length].
  destruct (64 <? length (encode (_client_secret self1)) + 1)%nat eqn:E1;
    [apply Nat.ltb_lt in E1; lia|].
  destruct (64 <? length (encode (_client_secret self1)))%nat eqn:E2;
    [apply Nat.ltb_lt in E2; lia|].
  now rewrite ljust_nul.
Qed.

Lemma generate_signature_nul_padded_secret_witness :
  _generate_signature
    {| _client_id := "my client"; _client_secret := "s3cret" ++ String Ascii.zero EmptyString |}
    "/locations/123/?client=my+client"
  = _generate_signature api0 "/locations/123/?client=my+client".
Proof.
  apply (generate_signature_nul_padded_secret api0); [cbn; lia|reflexivity].
Defined.

(** X11. A secret longer than 64 bytes is replaced by its SHA-1 digest
    before it is used as the key: it signs as the 20 bytes of that digest
    would. *)
Theorem generate_signature_long_secret self uri :
  (64 < String.length (_client_secret self))%nat ->
  _generate_signature self uri
  = base64.b64encode
      (hmac.digest (hmac.new (hashlib.sha1_digest (encode (_client_secret self)))
                      (encode uri))).
Proof.
  intros Hlen. rewrite <- encode_length in Hlen.
  unfold _generate_signature. f_equal.
  unfold hmac.digest, hmac._current, hmac.new, hashlib.block_size.
  rewrite sha1_digest_length.
  apply Nat.ltb_lt in Hlen. rewrite Hlen.
  change (64 <? 20)%nat with false. cbv iota.
  reflexivity.
Qed.

Lemma generate_signature_long_secret_witness :
  let secret :=
    "0123456789abcdef0123456789abcdef0123456789abcdef0123456789abcdef0123456789" in
  _generate_signature {| _client_id := "c"; _client_secret := secret |} "/locations/1/?client=c"
  = base64.b64encode
      (hmac.digest (hmac.new (hashlib.sha1_digest (encode secret))
                      (encode "/locations/1/?client=c"))).
Proof.
  intros secret.
  apply (generate_signature_long_secret {| _client_id := "c"; _client_secret := secret |}).
  cbn. lia.
Defined.

(** ** Calling [_generate_url] twice on one dict *)

Lemma urlencode_fresh_longer (d : pydict) k v :
  dict_get d k = None ->
  (String.length (urlencode d) < String.length (urlencode (dict_setitem d k v)))%nat.
Proof.
  intros Hfresh. rewrite (dict_setitem_fresh _ _ _ Hfresh).
  destruct d as [|kv d].
  - cbn. unfold urlencode_item. cbn [fst snd]. rewrite !append_length. cbn. lia.
  - rewrite urlencode_snoc by discriminate. rewrite !append_length. cbn. lia.
Qed.

(** X15. [_generate_url] leaves the signature in the dict of its caller, so
    a second call on the same dict signs a message that holds the first
    signature (another message than the first one, when the dict had no
    'signature' before), and it replaces the first signature by the second.
    Both calls return a URL, and the two URLs are equal exactly when the two
    signatures are. *)
Theorem generate_url_twice self path params d w :
  heap w !! params = Some d ->
  let message1 := path ++ "?" ++ urlencode d in
  let sig1 := _generate_signature self message1 in
  let d1 := dict_setitem d "signature" (VBytes sig1) in
  let message2 := path ++ "?" ++ urlencode d1 in
  let sig2 := _generate_signature self message2 in
  let first := _generate_url self path params w in
  let second := _generate_url self path params (snd first) in
  heap (snd first) !! params = Some d1 /\
  heap (snd second) !! params = Some (dict_setitem d "signature" (VBytes sig2)) /\
  (exists A B,
     message2 = A ++ ("signature=" ++ urllib_parse.quote_plus (Bytes sig1) []) ++ B) /\
  (dict_get d "signature" = None -> message2 <> message1) /\
  exists url1 url2,
    fst first = Return url1 /\ fst second = Return url2 /\
    (url1 = url2 <-> sig1 = sig2).
Proof.
  intros Hd message1 sig1 d1 message2 sig2 first second.
  assert (Hlt : (params < length (heap w))%nat) by (eapply lookup_lt_Some; eauto).
  assert (H1 : heap (snd first) !! params = Some d1).
  { subst first. rewrite (_generate_url_run _ _ _ _ _ Hd).
    cbn [snd after_generate_url heap]. now apply list_lookup_insert_eq. }
  split; [exact H1|].
  assert (Hsecond : second =
            (Return (fst (after_generate_url self path params d1 (snd first))),
             snd (after_generate_url self path params d1 (snd first))))
    by (subst second; now apply _generate_url_run).
  split.
  { rewrite Hsecond. cbn [snd after_generate_url heap].
    fold message2. fold sig2. unfold d1. rewrite dict_setitem_setitem.
    apply list_lookup_insert_eq. eapply lookup_lt_Some; eauto. }
  split.
  { destruct (urlencode_setitem_split d "signature") as (A & B & H).
    exists (path ++ "?" ++ A), B. unfold message2, d1. rewrite H.
    unfold urlencode_item. cbn [fst snd]. now rewrite !append_assoc. }
  split.
  { intros Hfresh E. unfold message2, message1 in E. do 2 apply append_inv_head in E.
    pose proof (urlencode_fresh_longer d "signature" (VBytes sig1) Hfresh) as Hlen.
    fold d1 in Hlen. rewrite E in Hlen. lia. }
  rewrite Hsecond. subst first. rewrite (_generate_url_run _ _ _ _ _ Hd).
  cbn [fst snd after_generate_url heap].
  fold message1. fold sig1. fold d1. fold message2. fold sig2.
  do 2 eexists. split; [reflexivity|]. split; [reflexivity|].
  unfold message2, d1. rewrite dict_setitem_setitem. split.
  - intros E. do 3 apply append_inv_head in E. now apply urlencode_setitem_inj in E.
  - intros E. now rewrite E.
Qed.

Lemma generate_url_twice_witness :
  let first := _generate_url api0 "/locations/123/menus/" 0 world0 in
  let second := _generate_url api0 "/locations/123/menus/" 0 (snd first) in
  heap world0 !! 0%nat = Some params0 /\
  decode (_generate_signature api0 "/locations/123/menus/?client=my+client")
    = "TINTYXd7p0OUJnwGcOlyHsayRoc=" /\
  exists url1 url2,
    fst first = Return url1 /\ fst second = Return url2 /\ url1 <> url2.
Proof.
  intros first second. split; [reflexivity|]. split; [vm_compute; reflexivity|].
  destruct (generate_url_twice api0 "/locations/123/menus/" 0 params0 world0 eq_refl)
    as (_ & _ & _ & _ & url1 & url2 & H1 & H2 & Hiff).
  exists url1, url2. split; [exact H1|]. split; [exact H2|].
  intros E. apply Hiff in E. vm_compute in E. discriminate.
Defined.

(** ** Separators of the query *)

Lemma count_char_append c (a b : string) :
  count_char c (a ++ b) = (count_char c a + count_char c b)%nat.
Proof. induction a as [|x a IH]; cbn; [reflexivity|]. rewrite IH. lia. Qed.

Lemma quote_plus_byte_no_separator x :
  count_char "=" (quote_plus_byte x) = 0%nat /\ count_char "&" (quote_plus_byte x) = 0%nat.
Proof. destruct x; split; reflexivity. Qed.

Lemma quote_plus_no_separator (s : str_or_bytes) :
  count_char "=" (urllib_parse.quote_plus s []) = 0%nat /\
  count_char "&" (urllib_parse.quote_plus s []) = 0%nat.
Proof.
  assert (Hb : forall b, count_char "=" (urllib_parse.quote_plus (Bytes b) []) = 0%nat /\
                         count_char "&" (urllib_parse.quote_plus (Bytes b) []) = 0%nat).
  { intros b. rewrite quote_plus_bytes. induction b as [|x b [IH1 IH2]]; [now split|].
    cbn [map]. rewrite concat_nil_cons, !count_char_append, IH1, IH2.
    destruct (quote_plus_byte_no_separator x) as [-> ->]. now split. }
  destruct s as [s|b]; [|apply Hb].
  specialize (Hb (encode s)). rewrite quote_plus_Bytes_Str in Hb.
  unfold decode, encode in Hb. now rewrite string_of_list_byte_of_string in Hb.
Qed.

Lemma urlencode_item_separators kv :
  count_char "=" (urlencode_item kv) = 1%nat /\ count_char "&" (urlencode_item kv) = 0%nat.
Proof.
  unfold urlencode_item. rewrite !count_char_append.
  destruct (quote_plus_no_separator (Str (fst kv))) as [-> ->].
  destruct (snd kv) as [s|n|b];
    match goal with |- context [urllib_parse.quote_plus ?v []] =>
      destruct (quote_plus_no_separator v) as [-> ->]
    end; now split.
Qed.

(** X13. No key and no value can add a parameter to the query or split one:
    in [urlencode d] there are as many '=' as entries in [d] and one '&'
    less, whatever the keys and the values hold. *)
Theorem urlencode_separators (d : pydict) :
  count_char "=" (urlencode d) = length d /\
  count_char "&" (urlencode d) = (length d - 1)%nat.
Proof.
  unfold urlencode. induction d as [|kv d [IH1 IH2]]; [now split|].
  destruct (urlencode_item_separators kv) as [H1 H2].
  destruct d as [|kv' d].
  - cbn [map String.concat length]. rewrite H1, H2. now split.
  - assert (Hcons : String.concat "&" (map urlencode_item (kv :: kv' :: d))
                    = urlencode_item kv ++ "&"
                      ++ String.concat "&" (map urlencode_item (kv' :: d)))
      by reflexivity.
    rewrite Hcons, !count_char_append, H1, H2, IH1, IH2.
    cbn [length count_char Ascii.eqb Bool.eqb]. split; lia.
Qed.

(** ** Failures of the three operations *)

(** X14. [summary], [menu] and [photos] handle no failure themselves: when
    [requests.get] fails its exception propagates, and when a response with
    status 200 has a body that is not JSON the error of [response.json()]
    propagates; either way the one request was sent and none follows. *)
Theorem api_call_failure_modes self call w req :
  last (sent (snd (perform self call w))) = Some req ->
  sent (snd (perform self call w)) = (sent w ++ [req])%list /\
  (network w (sent w) req = Failure ->
   fst (perform self call w) = Raise RequestException) /\
  (forall response,
     network w (sent w) req = Answer response ->
     status_code response = 200%Z ->
     json_body response = None ->
     fst (perform self call w) = Raise JSONDecodeError).
Proof.
  intros Hlast.
  destruct (perform_run self call w) as (url & w' & Hrun & Hsent & _).
  rewrite Hrun in Hlast |- *. cbn [fst snd] in Hlast |- *.
  rewrite Hsent, last_snoc in Hlast. injection Hlast as <-.
  split; [exact Hsent|]. split.
  - now intros ->.
  - intros response -> -> Hbody. cbn. unfold Response_json. now rewrite Hbody.
Qed.

Lemma api_call_failure_modes_witness :
  fst (perform api0 (Summary "123" true) failing_world) = Raise RequestException /\
  fst (perform api0 (Summary "123" true) (constant_world response_ok_not_json))
  = Raise JSONDecodeError.
Proof.
  split.
  - exact (proj1 (proj2 (api_call_failure_modes api0 (Summary "123" true) failing_world
                           summary_request0 ltac:(vm_compute; reflexivity))) eq_refl).
  - exact (proj2 (proj2 (api_call_failure_modes api0 (Summary "123" true)
                           (constant_world response_ok_not_json)
                           summary_request0 ltac:(vm_compute; reflexivity)))
             response_ok_not_json eq_refl eq_refl eq_refl).
Defined.
